(** * Labs-PR: the HTTP file servers of Lab 1 and Lab 2

    A shallow embedding of the three servers of the repository
    ([Lab 1/server.py], [Lab 2/server_multithreaded.py], [Lab 2/server.py])
    and of the shared state of the unified server: the per-file hit counter
    [file_hits] guarded by [counter_lock] and the per-address sliding window
    [rate_limits] guarded by [rate_limit_lock].

    Conventions of the embedding.
    - A Python [str] is a [string]: the bytes of its UTF-8 encoding.  The
      tests the handlers make on text ([==], [startswith], [lstrip("/")],
      [split("/")]) only look at ASCII characters, and they agree on a text
      and on its UTF-8 encoding.
    - A Python [int] is a [Z]; a Python [float] is a binary64 [float] of the
      kernel, with the same subtraction and comparison.
    - A Python [dict] is a [gmap]; [d.get(k, 0)] is [default 0 (d !! k)].
    - What the handlers ask of the operating system and of the Python
      library ([os.path], [pathlib], [urllib], the file system) is a record
      [World]; [posix_world] instantiates it with CPython's [posixpath]
      over a given directory tree.
    - The clock reading [datetime.now().timestamp()] is an argument [now]. *)

From Stdlib Require Import Floats ZArith Lia Ascii String.
From stdpp Require Import gmap strings list fin_maps pretty.

Set Default Proof Using "Type".

(* ===================================================================== *)
(** ** Python text operations used by the handlers *)
(* ===================================================================== *)

Module PyStr.

(** The characters the sources write with an escape. *)
Definition dq : string := String (ascii_of_nat 34) EmptyString.
Definition cr : string := String (ascii_of_nat 13) EmptyString.
Definition nl : string := String (ascii_of_nat 10) EmptyString.
Definition crlf : string := cr +:+ nl.
Definition slash : ascii := ascii_of_nat 47.
Definition dot : ascii := ascii_of_nat 46.

(** [s.startswith(p)] *)
Fixpoint startswith (s p : string) : bool :=
  match p, s with
  | EmptyString, _ => true
  | String c p', String d s' => if Ascii.eqb c d then startswith s' p' else false
  | String _ _, EmptyString => false
  end.

(** [s.lstrip("/")] *)
Fixpoint lstrip_slash (s : string) : string :=
  match s with
  | String c s' => if Ascii.eqb c slash then lstrip_slash s' else s
  | EmptyString => EmptyString
  end.

(** [s.rstrip("/")] *)
Fixpoint rstrip_slash (s : string) : string :=
  match s with
  | EmptyString => EmptyString
  | String c s' =>
      match rstrip_slash s' with
      | EmptyString => if Ascii.eqb c slash then EmptyString else String c EmptyString
      | r => String c r
      end
  end.

(** [s.endswith("/")] *)
Fixpoint endswith_slash (s : string) : bool :=
  match s with
  | EmptyString => false
  | String c EmptyString => Ascii.eqb c slash
  | String _ s' => endswith_slash s'
  end.

(** [s.split("/")]: never empty, [""] splits into [[""]]. *)
Fixpoint split_slash (s : string) : list string :=
  match s with
  | EmptyString => [EmptyString]
  | String c s' =>
      if Ascii.eqb c slash then EmptyString :: split_slash s'
      else match split_slash s' with
           | w :: ws => String c w :: ws
           | [] => [String c EmptyString]
           end
  end.

(** [sep.join(parts)] *)
Fixpoint join (sep : string) (parts : list string) : string :=
  match parts with
  | [] => EmptyString
  | [p] => p
  | p :: ps => p +:+ sep +:+ join sep ps
  end.

(** [x in xs] for a list of texts. *)
Definition mem (x : string) (xs : list string) : bool :=
  existsb (String.eqb x) xs.

(** [sorted(names)]: texts in code point order, which is the byte order of
    their UTF-8 encodings. *)
Fixpoint insert_sorted (x : string) (xs : list string) : list string :=
  match xs with
  | [] => [x]
  | y :: ys => if String.leb x y then x :: xs else y :: insert_sorted x ys
  end.

Definition sorted (xs : list string) : list string :=
  foldr insert_sorted [] xs.

(** ASCII [lower()], enough for the four extensions the servers accept. *)
Definition lower_ascii (c : ascii) : ascii :=
  let n := nat_of_ascii c in
  if (65 <=? n)%nat && (n <=? 90)%nat then ascii_of_nat (n + 32) else c.

Fixpoint lower (s : string) : string :=
  match s with
  | EmptyString => EmptyString
  | String c s' => String (lower_ascii c) (lower s')
  end.

End PyStr.

(* ===================================================================== *)
(** ** CPython's [posixpath]: [join], [normpath], [abspath] *)
(* ===================================================================== *)

Module posixpath.
Import PyStr.

Definition isabs (p : string) : bool := startswith p "/".

(** [os.path.join(a, b)] *)
Definition join (a b : string) : string :=
  if startswith b "/" then b
  else if String.eqb a "" || endswith_slash a then a +:+ b
  else a +:+ "/" +:+ b.

(** One turn of [normpath]'s loop; [new_comps] is kept last component
    first. *)
Definition normpath_step (initial_slashes : nat) (new_comps : list string)
    (comp : string) : list string :=
  if String.eqb comp "" || String.eqb comp "." then new_comps
  else if negb (String.eqb comp "..")
          || (Nat.eqb initial_slashes 0 && match new_comps with [] => true | _ => false end)
          || match new_comps with last :: _ => String.eqb last ".." | [] => false end
  then comp :: new_comps
  else match new_comps with _ :: rest => rest | [] => [] end.

(** [os.path.normpath(path)] *)
Definition normpath (path : string) : string :=
  if String.eqb path "" then "."
  else
    let initial_slashes :=
      if startswith path "/" then
        if startswith path "//" && negb (startswith path "///") then 2%nat else 1%nat
      else 0%nat in
    let comps := split_slash path in
    let new_comps := rev (fold_left (normpath_step initial_slashes) comps []) in
    let path := PyStr.join "/" new_comps in
    let path :=
      match initial_slashes with
      | 0%nat => path
      | 1%nat => "/" +:+ path
      | _ => "//" +:+ path
      end in
    if String.eqb path "" then "." else path.

(** [os.path.abspath(path)] in the working directory [cwd]. *)
Definition abspath (cwd path : string) : string :=
  normpath (if isabs path then path else join cwd path).

(** [pathlib.PurePath(path).suffix] (CPython 3.8 to 3.12): the last
    component from its last dot on, unless that dot starts or ends it. *)
Fixpoint rfind_dot (name : string) : option nat :=
  match name with
  | EmptyString => None
  | String c name' =>
      match rfind_dot name' with
      | Some i => Some (S i)
      | None => if Ascii.eqb c dot then Some 0%nat else None
      end
  end.

Definition suffix (path : string) : string :=
  let name := List.last (split_slash (rstrip_slash path)) "" in
  match rfind_dot name with
  | Some i =>
      if (0 <? i)%nat && (i <? String.length name - 1)%nat
      then String.substring i (String.length name - i) name
      else ""
  | None => ""
  end.

End posixpath.

(* ===================================================================== *)
(** ** The environment of a handler *)
(* ===================================================================== *)

(** The outcome of a library call that may raise; [Raise e] carries
    [str(e)]. *)
Inductive Result (A : Type) : Type :=
| Ok (a : A)
| Raise (e : string).
Arguments Ok {A} a.
Arguments Raise {A} e.

(** The library and operating system calls of the handlers. *)
Record World : Type := {
  unquote : string -> string;            (* urllib.parse.unquote *)
  path_join : string -> string -> string; (* os.path.join *)
  normpath : string -> string;           (* os.path.normpath *)
  abspath : string -> string;            (* os.path.abspath *)
  suffix_lower : string -> string;       (* Path(p).suffix.lower() *)
  path_exists : string -> bool;          (* os.path.exists *)
  isdir : string -> bool;                (* os.path.isdir *)
  listdir : string -> Result (list string); (* os.listdir *)
  read_file : string -> Result string    (* open(p, "rb").read() *)
}.

(** What a handler passes to [send_response]. *)
Record Response : Type := {
  status_code : Z;
  content_type : string;
  body : string
}.

(** What [recv] and the split of the first line give a handler: no data at
    all, or the whitespace separated words of the request line,
    [lines[0].split()]. *)
Inductive Received : Type :=
| NoData
| RequestLine (request_line : list string).

(** [send_response]'s table of reason phrases; the unified server also knows
    429. *)
Definition status_message (with_429 : bool) (status_code : Z) : string :=
  if (status_code =? 200)%Z then "OK"
  else if (status_code =? 400)%Z then "Bad Request"
  else if (status_code =? 403)%Z then "Forbidden"
  else if (status_code =? 404)%Z then "Not Found"
  else if (status_code =? 405)%Z then "Method Not Allowed"
  else if with_429 && (status_code =? 429)%Z then "Too Many Requests"
  else if (status_code =? 500)%Z then "Internal Server Error"
  else "Unknown".

(** The bytes [send_response] writes to the socket. *)
Definition send_response (with_429 : bool) (r : Response) : string :=
  "HTTP/1.1 " +:+ pretty (status_code r) +:+ " "
    +:+ status_message with_429 (status_code r) +:+ PyStr.crlf
    +:+ "Content-Type: " +:+ content_type r +:+ PyStr.crlf
    +:+ "Content-Length: " +:+ pretty (String.length (body r)) +:+ PyStr.crlf
    +:+ "Connection: close" +:+ PyStr.crlf
    +:+ PyStr.crlf
    +:+ body r.

(** Lines of a triple quoted template, each closed by a newline. *)
Definition unlines (ls : list string) : string :=
  foldr (fun l acc => l +:+ PyStr.nl +:+ acc) "" ls.

(** [get_content_type], the same in the three servers. *)
Definition get_content_type (w : World) (file_path : string) : string :=
  let ext := suffix_lower w file_path in
  if String.eqb ext ".html" then "text/html"
  else if String.eqb ext ".htm" then "text/html"
  else if String.eqb ext ".png" then "image/png"
  else if String.eqb ext ".pdf" then "application/pdf"
  else "application/octet-stream".

Definition supported_extensions : list string := [".html"; ".htm"; ".png"; ".pdf"].

(* ===================================================================== *)
(** ** [Lab 2/server.py]: the unified server *)
(* ===================================================================== *)

Module Lab2_server.
Import PyStr.

(** [SERVER_MODE] *)
Inductive Mode : Type := single | multi | race | threadsafe | ratelimit.

Definition counts_hits (mode : Mode) : bool :=
  match mode with
  | race | threadsafe | ratelimit => true
  | single | multi => false
  end.

(** *** The rate limiter *)

(** The test of the comprehension: a timestamp is kept when
    [now - ts < 1]. *)
Definition in_window (now ts : float) : bool := (now - ts <? 1)%float.

(** [rate_limited(ip_addr)] at clock reading [now]; the body runs under
    [rate_limit_lock].  [rate_limits] is a [defaultdict(list)]: reading a
    missing address gives the empty list.  The result is [True] when the
    request is to be refused. *)
Definition rate_limited (now : float) (ip_addr : string)
    (rate_limits : gmap string (list float)) : bool * gmap string (list float) :=
  let timestamps := default [] (rate_limits !! ip_addr) in
  let rate_limits := <[ip_addr := List.filter (in_window now) timestamps]> rate_limits in
  if (5 <=? length (default [] (rate_limits !! ip_addr)))%nat then (true, rate_limits)
  else (false, <[ip_addr := default [] (rate_limits !! ip_addr) ++ [now]]> rate_limits).

(** *** The hit counter *)

(** The statements of the two counter blocks of [handle_client], one
    constructor per statement; [Acquire] and [Release] are the entry and
    the exit of [with counter_lock]. *)
Inductive Action : Type := Acquire | ReadCount | Sleep | WriteCount | Release.

(** The counter block [handle_client] runs in each mode. *)
Definition counter_path (mode : Mode) : list Action :=
  match mode with
  | race => [ReadCount; Sleep; WriteCount]
  | threadsafe | ratelimit => [Acquire; ReadCount; Sleep; WriteCount; Release]
  | single | multi => []
  end.

(** The shared counter: [file_hits] and whether [counter_lock] is held. *)
Record Counter : Type := {
  hits : gmap string Z;
  locked : bool
}.

(** One handler thread inside its counter block: the key it counts, its
    local [current_count] and the statements it has left. *)
Record Thread : Type := {
  file_path : string;
  current_count : Z;
  todo : list Action
}.

(** A thread can take its next statement unless it is an [Acquire] of a
    held lock. *)
Definition enabled (a : Action) (c : Counter) : bool :=
  match a with
  | Acquire => negb (locked c)
  | _ => true
  end.

(** The effect of one statement on the shared counter and on the thread's
    [current_count]. *)
Definition exec (a : Action) (key : string) (cur : Z) (c : Counter) : Counter * Z :=
  match a with
  | Acquire => ({| hits := hits c; locked := true |}, cur)
  | ReadCount => (c, default 0%Z (hits c !! key))
  | Sleep => (c, cur)
  | WriteCount => ({| hits := <[key := (cur + 1)%Z]> (hits c); locked := locked c |}, cur)
  | Release => ({| hits := hits c; locked := false |}, cur)
  end.

(** A block run by one thread with no other thread in between. *)
Fixpoint run (acts : list Action) (key : string) (cur : Z) (c : Counter) : Counter * Z :=
  match acts with
  | [] => (c, cur)
  | a :: acts' => let '(c', cur') := exec a key cur c in run acts' key cur' c'
  end.

(** Whether every statement of the block was enabled when its turn came. *)
Fixpoint runs_unblocked (acts : list Action) (key : string) (cur : Z) (c : Counter) : bool :=
  match acts with
  | [] => true
  | a :: acts' =>
      enabled a c && let '(c', cur') := exec a key cur c in runs_unblocked acts' key cur' c'
  end.

(** The counter block as one handler runs it: the lock is free on entry. *)
Definition counter_update (mode : Mode) (key : string) (file_hits : gmap string Z)
    : gmap string Z :=
  hits (fst (run (counter_path mode) key 0%Z {| hits := file_hits; locked := false |})).

(** Threads interleaved statement by statement: any thread whose next
    statement is enabled may take it. *)
Inductive step : Counter * list Thread -> Counter * list Thread -> Prop :=
| step_thread c c' cur' l1 t l2 a rest :
    todo t = a :: rest ->
    enabled a c = true ->
    exec a (file_path t) (current_count t) c = (c', cur') ->
    step (c, l1 ++ t :: l2)
         (c', l1 ++ {| file_path := file_path t; current_count := cur'; todo := rest |} :: l2).

(** The threads of [keys], each about to run the counter block of
    [mode]. *)
Definition spawn (mode : Mode) (keys : list string) : list Thread :=
  map (fun k => {| file_path := k; current_count := 0%Z; todo := counter_path mode |}) keys.

Definition finished (ts : list Thread) : Prop :=
  Forall (fun t => todo t = []) ts.

(** *** The directory listing *)

Definition listing_row (w : World) (mode : Mode) (file_hits : gmap string Z)
    (dir_path url_path item : string) : string :=
  let fpath := path_join w dir_path item in
  let display_name := if isdir w fpath then item +:+ "/" else item in
  let item_url :=
    if endswith_slash url_path then url_path +:+ item else url_path +:+ "/" +:+ item in
  let hits :=
    if counts_hits mode then pretty (default 0%Z (file_hits !! fpath)) else "" in
  "<tr><td><a href=" +:+ dq +:+ item_url +:+ dq +:+ ">" +:+ display_name
    +:+ "</a></td><td>" +:+ hits +:+ "</td></tr>" +:+ nl.

(** [generate_directory_listing(dir_path, url_path)] *)
Definition generate_directory_listing (w : World) (mode : Mode)
    (file_hits : gmap string Z) (dir_path url_path : string) : string :=
  let html := unlines
    [ "<!DOCTYPE html>";
      "<html>";
      "<head>";
      "<title>Directory listing for " +:+ url_path +:+ "</title>";
      "<style>";
      "body { font-family: Arial, sans-serif; margin: 20px; }";
      "h1 { border-bottom: 1px solid #ccc; }";
      "table { border-collapse: collapse; width: 100%; }";
      "th, td { text-align: left; padding: 8px; border-bottom: 1px solid #ddd; }";
      "th { background-color: #f2f2f2; }";
      "a { text-decoration: none; color: #0066cc; }";
      "a:hover { text-decoration: underline; }";
      "</style>";
      "</head>";
      "<body>";
      "<h1>Directory listing for " +:+ url_path +:+ "</h1>";
      "<table>";
      "<tr><th>File / Directory</th><th>Hits</th></tr>" ] in
  let html :=
    match listdir w dir_path with
    | Ok names =>
        fold_left (fun html item => html +:+ listing_row w mode file_hits dir_path url_path item)
                  (sorted names) html
    | Raise e =>
        html +:+ "<tr><td colspan=" +:+ dq +:+ "2" +:+ dq
             +:+ ">Error reading directory: " +:+ e +:+ "</td></tr>" +:+ nl
    end in
  html +:+ "</table></body></html>".

(** *** The connection handler *)

(** The two shared maps of the module. *)
Record State : Type := {
  file_hits : gmap string Z;
  rate_limits : gmap string (list float)
}.

Definition bad_request : Response :=
  {| status_code := 400; content_type := "text/plain"; body := "Bad Request" |}.
Definition too_many_requests : Response :=
  {| status_code := 429; content_type := "text/plain"; body := "Too Many Requests" |}.
Definition method_not_allowed : Response :=
  {| status_code := 405; content_type := "text/plain"; body := "Method Not Allowed" |}.
Definition forbidden : Response :=
  {| status_code := 403; content_type := "text/html";
     body := "<!DOCTYPE html><html><body><h1>403 Forbidden</h1><p>Access denied.</p></body></html>" |}.
Definition not_found : Response :=
  {| status_code := 404; content_type := "text/html";
     body := "<!DOCTYPE html><html><body><h1>404 Not Found</h1><p>File not found.</p></body></html>" |}.
Definition not_supported : Response :=
  {| status_code := 404; content_type := "text/html"; body := "File type not supported" |}.
Definition internal_error (e : string) : Response :=
  {| status_code := 500; content_type := "text/plain";
     body := "Internal Server Error: " +:+ e |}.

(** The end of [handle_client], which the source writes out once for
    [single], once for [multi] and once for the counting modes: a listing
    for a directory, the file for a supported extension.  A failed read
    raises, and the [except] clause answers 500. *)
Definition serve (w : World) (mode : Mode) (hits_now : gmap string Z)
    (file_path url_path : string) : Response :=
  if isdir w file_path then
    {| status_code := 200; content_type := "text/html";
       body := generate_directory_listing w mode hits_now file_path url_path |}
  else if negb (mem (suffix_lower w file_path) supported_extensions) then not_supported
  else match read_file w file_path with
       | Ok content =>
           {| status_code := 200; content_type := get_content_type w file_path;
              body := content |}
       | Raise e => internal_error e
       end.

(** The path [handle_client] resolves for [url_path]: [base_dir] itself
    for ["/"], else [base_dir] joined with the path less its leading
    slashes; normalised. *)
Definition resolve (w : World) (base_dir url_path : string) : string :=
  normpath w (if String.eqb url_path "/" then base_dir
              else path_join w base_dir (lstrip_slash url_path)).

(** The test that answers 403. *)
Definition within_base (w : World) (base_dir file_path : string) : bool :=
  startswith (abspath w file_path) (abspath w base_dir).

(** The rate check of [handle_client]: [rate_limited] in mode
    [ratelimit], nothing in the other modes. *)
Definition rate_check (mode : Mode) (now : float) (ip : string)
    (limits : gmap string (list float)) : bool * gmap string (list float) :=
  match mode with
  | ratelimit => rate_limited now ip limits
  | _ => (false, limits)
  end.

(** [handle_client(client_socket, client_address, base_dir)] in mode
    [mode]: the response sent, if any, and the shared maps afterwards.
    [ip] is [client_address[0]], [now] the clock reading [rate_limited]
    takes.  The delays ([time.sleep]) leave no trace in the result, and the
    test [if not lines] never fires, [split] returning at least one
    line. *)
Definition handle_client (mode : Mode) (w : World) (now : float) (ip : string)
    (base_dir : string) (request : Received) (st : State) : option Response * State :=
  match request with
  | NoData => (None, st)
  | RequestLine request_line =>
      match request_line with
      | method :: target :: _ =>
          let url_path := unquote w target in
          let '(limited, limits) := rate_check mode now ip (rate_limits st) in
          let st := {| file_hits := file_hits st; rate_limits := limits |} in
          if limited then (Some too_many_requests, st)
          else if negb (String.eqb method "GET") then (Some method_not_allowed, st)
          else
            let file_path := resolve w base_dir url_path in
            if negb (within_base w base_dir file_path) then (Some forbidden, st)
            else if negb (path_exists w file_path) then (Some not_found, st)
            else
              let st := {| file_hits := counter_update mode file_path (file_hits st);
                           rate_limits := rate_limits st |} in
              (Some (serve w mode (file_hits st) file_path url_path), st)
      | _ => (Some bad_request, st)
      end
  end.

End Lab2_server.

(* ===================================================================== *)
(** ** [Lab 2/server_multithreaded.py] *)
(* ===================================================================== *)

Module Lab2_server_multithreaded.
Import PyStr.

Definition listing_row (w : World) (dir_path url_path item : string) : string :=
  let item_path := path_join w dir_path item in
  let display_name := if isdir w item_path then item +:+ "/" else item in
  let item_url :=
    if endswith_slash url_path then url_path +:+ item else url_path +:+ "/" +:+ item in
  "        <tr><td><a href=" +:+ dq +:+ item_url +:+ dq +:+ ">" +:+ display_name
    +:+ "</a></td></tr>" +:+ nl.

(** [generate_directory_listing(dir_path, url_path)] *)
Definition generate_directory_listing (w : World) (dir_path url_path : string) : string :=
  let html := unlines
    [ "<!DOCTYPE html>";
      "<html>";
      "<head>";
      "    <title>Directory listing for " +:+ url_path +:+ "</title>";
      "    <style>";
      "        body { font-family: Arial, sans-serif; margin: 20px; }";
      "        h1 { border-bottom: 1px solid #ccc; }";
      "        table { border-collapse: collapse; width: 100%; }";
      "        th, td { text-align: left; padding: 8px; border-bottom: 1px solid #ddd; }";
      "        th { background-color: #f2f2f2; }";
      "        a { text-decoration: none; color: #0066cc; }";
      "        a:hover { text-decoration: underline; }";
      "    </style>";
      "</head>";
      "<body>";
      "    <h1>Directory listing for " +:+ url_path +:+ "</h1>";
      "    <table>";
      "        <tr>";
      "            <th>File / Directory</th>";
      "        </tr>" ] in
  let html :=
    match listdir w dir_path with
    | Ok names =>
        fold_left (fun html item => html +:+ listing_row w dir_path url_path item)
                  (sorted names) html
    | Raise e =>
        html +:+ "        <tr><td>Error reading directory: " +:+ e +:+ "</td></tr>" +:+ nl
    end in
  html +:+ PyStr.join nl [ "    </table>"; "</body>"; "</html>" ].

Definition bad_request : Response :=
  {| status_code := 400; content_type := "text/plain"; body := "Bad Request" |}.
Definition method_not_allowed : Response :=
  {| status_code := 405; content_type := "text/plain"; body := "Method Not Allowed" |}.
Definition forbidden : Response :=
  {| status_code := 403; content_type := "text/html";
     body := "<!DOCTYPE html><html><body><h1>403 Forbidden</h1><p>Access denied.</p></body></html>" |}.
Definition not_found : Response :=
  {| status_code := 404; content_type := "text/html";
     body := "<!DOCTYPE html><html><body><h1>404 Not Found</h1><p>The requested file was not found.</p></body></html>" |}.
Definition not_supported : Response :=
  {| status_code := 404; content_type := "text/html";
     body := "<!DOCTYPE html><html><body><h1>404 Not Found</h1><p>File type not supported. Server only supports HTML, PNG, and PDF files.</p></body></html>" |}.
Definition internal_error (e : string) : Response :=
  {| status_code := 500; content_type := "text/plain";
     body := "Internal Server Error: " +:+ e |}.

(** [handle_client(client_socket, client_address, base_dir)]; the handler
    keeps no state. *)
Definition handle_client (w : World) (base_dir : string) (request : Received)
    : option Response :=
  match request with
  | NoData => None
  | RequestLine request_line =>
      match request_line with
      | method :: target :: _ =>
          let url_path := unquote w target in
          if negb (String.eqb method "GET") then Some method_not_allowed
          else
            let file_path :=
              if String.eqb url_path "/" then base_dir
              else path_join w base_dir (lstrip_slash url_path) in
            let file_path := normpath w file_path in
            let base_dir_abs := abspath w base_dir in
            let file_path_abs := abspath w file_path in
            if negb (startswith file_path_abs base_dir_abs) then Some forbidden
            else if negb (path_exists w file_path) then Some not_found
            else if isdir w file_path then
              Some {| status_code := 200; content_type := "text/html";
                      body := generate_directory_listing w file_path url_path |}
            else if negb (mem (suffix_lower w file_path) supported_extensions)
            then Some not_supported
            else match read_file w file_path with
                 | Ok content =>
                     Some {| status_code := 200;
                             content_type := get_content_type w file_path;
                             body := content |}
                 | Raise e => Some (internal_error e)
                 end
      | _ => Some bad_request
      end
  end.

End Lab2_server_multithreaded.

(* ===================================================================== *)
(** ** [Lab 1/server.py] *)
(* ===================================================================== *)

Module Lab1_server.
Import PyStr.

(** The two pictographs of the listing, as UTF-8 bytes. *)
Definition open_folder : string :=
  String (ascii_of_nat 240) (String (ascii_of_nat 159)
    (String (ascii_of_nat 147) (String (ascii_of_nat 130) EmptyString))).
Definition scroll : string :=
  String (ascii_of_nat 240) (String (ascii_of_nat 159)
    (String (ascii_of_nat 147) (String (ascii_of_nat 156) EmptyString))).

(** ["/".join(url_path.rstrip("/").split("/")[:-1]) or "/"] *)
Definition parent_path (url_path : string) : string :=
  let p := PyStr.join "/" (removelast (split_slash (rstrip_slash url_path))) in
  if String.eqb p "" then "/" else p.

Definition directory_item (url_path directory : string) : string :=
  let link := rstrip_slash url_path +:+ "/" +:+ directory +:+ "/" in
  "        <li class=" +:+ dq +:+ "folder" +:+ dq +:+ "><a href=" +:+ dq +:+ link +:+ dq
    +:+ ">" +:+ open_folder +:+ " " +:+ directory +:+ "/</a></li>" +:+ nl.

Definition file_item (url_path file : string) : string :=
  let link := rstrip_slash url_path +:+ "/" +:+ file in
  "        <li><a href=" +:+ dq +:+ link +:+ dq +:+ ">" +:+ scroll +:+ " " +:+ file
    +:+ "</a></li>" +:+ nl.

(** [generate_directory_listing(dir_path, url_path)] *)
Definition generate_directory_listing (w : World) (dir_path url_path : string) : string :=
  let html := unlines
    [ "<!DOCTYPE html>";
      "<html>";
      "<head>";
      "    <meta charset=" +:+ dq +:+ "utf-8" +:+ dq +:+ ">";
      "    <title>Directory listing for " +:+ url_path +:+ "</title>";
      "    <style>";
      "        body {";
      "            font-family: Arial, sans-serif;";
      "            margin: 40px;";
      "            background-color: #f5f5f5;";
      "        }";
      "        h1 {";
      "            border-bottom: 2px solid #333;";
      "            padding-bottom: 10px;";
      "        }";
      "        ul {";
      "            list-style-type: none;";
      "            padding: 0;";
      "        }";
      "        li {";
      "            padding: 8px;";
      "            margin: 5px 0;";
      "            background-color: white;";
      "            border-radius: 4px;";
      "        }";
      "        a {";
      "            text-decoration: none;";
      "            color: #0066cc;";
      "        }";
      "        a:hover {";
      "            text-decoration: underline;";
      "        }";
      "        .folder {";
      "            font-weight: bold;";
      "        }";
      "    </style>";
      "</head>";
      "<body>";
      "    <h1>Directory listing for " +:+ url_path +:+ "</h1>";
      "    <hr>";
      "    <ul>" ] in
  let html :=
    if negb (String.eqb url_path "/") then
      html +:+ "        <li class=" +:+ dq +:+ "folder" +:+ dq +:+ "><a href=" +:+ dq
           +:+ parent_path url_path +:+ dq +:+ ">" +:+ open_folder
           +:+ " Parent Directory</a></li>" +:+ nl
    else html in
  let html :=
    match listdir w dir_path with
    | Ok names =>
        let entries := sorted names in
        let dirs := List.filter (fun entry => isdir w (path_join w dir_path entry)) entries in
        let files :=
          List.filter (fun entry => negb (isdir w (path_join w dir_path entry))) entries in
        let html := fold_left (fun html d => html +:+ directory_item url_path d) dirs html in
        fold_left (fun html f => html +:+ file_item url_path f) files html
    | Raise e => html +:+ "        <li>Error reading directory: " +:+ e +:+ "</li>" +:+ nl
    end in
  html +:+ unlines [ "    </ul>"; "    <hr>"; "</body>"; "</html>" ].

Definition bad_request : Response :=
  {| status_code := 400; content_type := "text/plain"; body := "Bad Request" |}.
Definition method_not_allowed : Response :=
  {| status_code := 405; content_type := "text/plain"; body := "Method Not Allowed" |}.
Definition forbidden : Response :=
  {| status_code := 403; content_type := "text/plain"; body := "Forbidden" |}.
Definition not_found : Response :=
  {| status_code := 404; content_type := "text/html";
     body := "<html><body><h1>404 Not Found</h1><p>The requested file was not found.</p></body></html>" |}.
Definition not_supported : Response :=
  {| status_code := 404; content_type := "text/html";
     body := "<html><body><h1>404 Not Found</h1><p>File type not supported. Server only supports HTML, PNG, and PDF files.</p></body></html>" |}.
Definition internal_error (e : string) : Response :=
  {| status_code := 500; content_type := "text/plain";
     body := "Internal Server Error: " +:+ e |}.

(** What follows the root case of [handle_request]. *)
Definition serve_path (w : World) (base_dir url_path : string) : Response :=
  let relative_path := lstrip_slash url_path in
  let file_path := path_join w base_dir relative_path in
  let file_path := normpath w file_path in
  let base_dir_abs := abspath w base_dir in
  let file_path_abs := abspath w file_path in
  if negb (startswith file_path_abs base_dir_abs) then forbidden
  else if negb (path_exists w file_path) then not_found
  else if isdir w file_path then
    {| status_code := 200; content_type := "text/html";
       body := generate_directory_listing w file_path url_path |}
  else if negb (mem (suffix_lower w file_path) supported_extensions) then not_supported
  else match read_file w file_path with
       | Ok content =>
           {| status_code := 200; content_type := get_content_type w file_path;
              body := content |}
       | Raise e => internal_error e
       end.

(** [handle_request(client_socket, base_dir)].  This server decodes the
    data strictly, so the read itself may raise: [request] is then
    [Raise e]. *)
Definition handle_request (w : World) (base_dir : string) (request : Result Received)
    : option Response :=
  match request with
  | Raise e => Some (internal_error e)
  | Ok NoData => None
  | Ok (RequestLine parts) =>
      match parts with
      | method :: target :: _ =>
          let url_path := unquote w target in
          if negb (String.eqb method "GET") then Some method_not_allowed
          else if String.eqb url_path "/" then
            let url_path := "/index.html" in
            let index_path := path_join w base_dir "index.html" in
            if negb (path_exists w index_path) then
              Some {| status_code := 200; content_type := "text/html";
                      body := generate_directory_listing w base_dir "/" |}
            else Some (serve_path w base_dir url_path)
          else Some (serve_path w base_dir url_path)
      | _ => Some bad_request
      end
  end.

End Lab1_server.

(* ===================================================================== *)
(** ** A POSIX world over a directory tree *)
(* ===================================================================== *)

(** A file system as the list of its entries: a directory with the names in
    it, or a file with what reading it gives. *)
Inductive Entry : Type :=
| Dir (names : list string)
| File (content : Result string).

Definition lookup_entry (fs : list (string * Entry)) (p : string) : option Entry :=
  snd <$> List.find (fun e => String.eqb (fst e) p) fs.

(** Percent decoding, [%XX] to the byte [XX]; an escape that is not two hex
    digits is left as it is.  [urllib.parse.unquote] does this and then
    decodes the bytes as UTF-8, so the two agree on every text whose decoded
    bytes are valid UTF-8. *)
Definition hex_digit (c : ascii) : option nat :=
  let n := nat_of_ascii c in
  if (48 <=? n)%nat && (n <=? 57)%nat then Some (n - 48)%nat
  else if (65 <=? n)%nat && (n <=? 70)%nat then Some (n - 55)%nat
  else if (97 <=? n)%nat && (n <=? 102)%nat then Some (n - 87)%nat
  else None.

Fixpoint percent_decode (s : string) : string :=
  match s with
  | EmptyString => EmptyString
  | String c s' =>
      if Ascii.eqb c (ascii_of_nat 37) then
        match s' with
        | String a (String b rest) =>
            match hex_digit a, hex_digit b with
            | Some x, Some y => String (ascii_of_nat (16 * x + y)) (percent_decode rest)
            | _, _ => String c (percent_decode s')
            end
        | _ => String c (percent_decode s')
        end
      else String c (percent_decode s')
  end.

(** The world of a POSIX system whose working directory is [cwd] and whose
    files are [fs], listed by absolute path. *)
Definition posix_world (cwd : string) (fs : list (string * Entry)) : World :=
  let at_ p := lookup_entry fs (posixpath.abspath cwd p) in
  {| unquote := percent_decode;
     path_join := posixpath.join;
     normpath := posixpath.normpath;
     abspath := posixpath.abspath cwd;
     suffix_lower := fun p => PyStr.lower (posixpath.suffix p);
     path_exists := fun p => match at_ p with Some _ => true | None => false end;
     isdir := fun p => match at_ p with Some (Dir _) => true | _ => false end;
     listdir := fun p =>
       match at_ p with
       | Some (Dir names) => Ok names
       | Some (File _) => Raise "[Errno 20] Not a directory"
       | None => Raise "[Errno 2] No such file or directory"
       end;
     read_file := fun p =>
       match at_ p with
       | Some (File content) => content
       | Some (Dir _) => Raise "[Errno 21] Is a directory"
       | None => Raise "[Errno 2] No such file or directory"
       end |}.

(* ===================================================================== *)
(** ** Vocabulary of the properties *)
(* ===================================================================== *)

Import Lab2_server.

(** *** The rate limiter *)

(** The limiter as the specification words it: a stored timestamp is
    dropped when it is older than [now - 1s], and kept otherwise. *)
Definition older_than_window (now ts : float) : bool := (ts <? now - 1)%float.

Definition check_spec (now : float) (ip : string) (limits : gmap string (list float))
    : bool * gmap string (list float) :=
  let pruned :=
    List.filter (fun ts => negb (older_than_window now ts)) (default [] (limits !! ip)) in
  if (5 <=? length pruned)%nat then (true, <[ip := pruned]> limits)
  else (false, <[ip := pruned ++ [now]]> limits).

(** Successive checks of one address, at the clock readings [nows]: the
    answers in order and the limiter map afterwards. *)
Fixpoint check_all (ip : string) (nows : list float) (limits : gmap string (list float))
    : list bool * gmap string (list float) :=
  match nows with
  | [] => ([], limits)
  | now :: nows' =>
      let '(limited, limits') := rate_limited now ip limits in
      let '(answers, limits'') := check_all ip nows' limits' in
      (limited :: answers, limits'')
  end.

(** Checks of any addresses, in order. *)
Definition run_checks (checks : list (string * float)) (limits : gmap string (list float))
    : gmap string (list float) :=
  fold_left (fun limits c => snd (rate_limited (snd c) (fst c) limits)) checks limits.

(** A limiter map the server can be in: the empty map of a fresh process
    after some checks. *)
Definition reachable_limits (limits : gmap string (list float)) : Prop :=
  exists checks, limits = run_checks checks ∅.

(** A burst inside one window: every timestamp is still in the window when
    any later one is taken. *)
Fixpoint burst_in_window (ts : list float) : Prop :=
  match ts with
  | [] => True
  | t :: later => Forall (fun t' => in_window t' t = true) later /\ burst_in_window later
  end.

(** *** Paths *)

(** A request path has a parent-directory segment. *)
Definition has_parent_segment (url_path : string) : bool :=
  PyStr.mem ".." (PyStr.split_slash url_path).

(** An absolute path [p] is the directory [root] or lies below it. *)
Definition under_root (root p : string) : bool :=
  String.eqb p root
  || PyStr.startswith p (if PyStr.endswith_slash root then root else root +:+ "/").

(** *** A directory tree for the examples *)

Definition example_tree : list (string * Entry) :=
  [ ("/srv/www", Dir ["index.html"; "docs"; "notes.txt"; "locked.png"]);
    ("/srv/www/index.html", File (Ok "<h1>hi</h1>"));
    ("/srv/www/docs", Dir ["a.pdf"]);
    ("/srv/www/docs/a.pdf", File (Ok "%PDF-1.4"));
    ("/srv/www/notes.txt", File (Ok "notes"));
    ("/srv/www/locked.png", File (Raise "[Errno 13] Permission denied"));
    ("/srv/www-secret", Dir ["key.html"]);
    ("/srv/www-secret/key.html", File (Ok "secret")) ].

Definition example_world : World := posix_world "/home/u" example_tree.

Definition fresh_state : State := {| file_hits := ∅; rate_limits := ∅ |}.

(** A limiter map in which ["10.0.0.7"] has used its five requests of the
    second before [100.75]. *)
Definition busy_limits : gmap string (list float) :=
  {[ "10.0.0.7" := [100; 100.125; 100.25; 100.375; 100.5]%float ]}.

Definition busy_state : State := {| file_hits := ∅; rate_limits := busy_limits |}.

(** *** Threads in the counter block *)

(** The block of the locked modes; a thread of these modes is always at a
    suffix of it. *)
Definition locked_path : list Action := [Acquire; ReadCount; Sleep; WriteCount; Release].

Definition well_placed (t : Thread) : Prop :=
  todo t = drop (5 - length (todo t)) locked_path.

(** The thread is inside [with counter_lock]. *)
Definition holds_lock (t : Thread) : bool :=
  (1 <=? length (todo t))%nat && (length (todo t) <=? 4)%nat.

(** The thread has read [current_count] and not yet written it back. *)
Definition has_read (t : Thread) : bool :=
  (2 <=? length (todo t))%nat && (length (todo t) <=? 3)%nat.

(** The thread has written its count. *)
Definition has_written (t : Thread) : bool := (length (todo t) <=? 1)%nat.

Definition written_for (k : string) (t : Thread) : bool :=
  has_written t && String.eqb (file_path t) k.

Definition count_if (f : Thread -> bool) (ts : list Thread) : nat :=
  length (List.filter f ts).

(** How many of the increments [keys] are for [k]. *)
Definition occurrences (k : string) (keys : list string) : nat :=
  length (List.filter (fun k' => String.eqb k' k) keys).

(** What every state of the locked modes satisfies, for threads spawned for
    [keys] over the initial counts [hits0]: the lock is held exactly when
    one thread is inside the block, a thread that has read holds the
    current value of its entry, and every entry stands at its initial value
    plus the number of its threads that have written. *)
Definition counter_inv (hits0 : gmap string Z) (keys : list string)
    (s : Counter * list Thread) : Prop :=
  let '(c, ts) := s in
  map file_path ts = keys
  /\ Forall well_placed ts
  /\ count_if holds_lock ts = (if locked c then 1 else 0)%nat
  /\ Forall (fun t => has_read t = true ->
                      current_count t = default 0%Z (hits c !! file_path t)) ts
  /\ forall k, default 0%Z (hits c !! k)
               = (default 0%Z (hits0 !! k) + Z.of_nat (count_if (written_for k) ts))%Z.

(** The statements the threads have left, all together. *)
Definition remaining (ts : list Thread) : nat :=
  list_sum (map (fun t => length (todo t)) ts).

(** The acquire and release statements taken out of a block. *)
Definition is_lock_action (a : Action) : bool :=
  match a with
  | Acquire | Release => true
  | _ => false
  end.

Definition without_lock (acts : list Action) : list Action :=
  List.filter (fun a => negb (is_lock_action a)) acts.

(** A thread of [key] with the block [acts] ahead of it. *)
Definition thread_at (key : string) (cur : Z) (acts : list Action) : Thread :=
  {| file_path := key; current_count := cur; todo := acts |}.

(** How many of the answers of [check_all] let the request through. *)
Definition admitted_count (answers : list bool) : nat :=
  length (List.filter negb answers).

(** *** Connections served one after the other *)

(** An accepted connection: the clock reading its rate check takes, the
    address of the client and what was received. *)
Record Connection : Type := {
  arrival : float;
  client_ip : string;
  received : Received
}.

(** The loop of [run_single_threaded]: each accepted connection is handled
    to its end before the next is accepted.  A run of [run_multithreaded]
    in which no two handlers overlap does the same. *)
Fixpoint serve_in_order (mode : Mode) (w : World) (base_dir : string)
    (accepted : list Connection) (st : State) : list (option Response) * State :=
  match accepted with
  | [] => ([], st)
  | conn :: accepted' =>
      let '(response, st') :=
        handle_client mode w (arrival conn) (client_ip conn) base_dir (received conn) st in
      let '(responses, st'') := serve_in_order mode w base_dir accepted' st' in
      (response :: responses, st'')
  end.

(** The key a request has counted, if the request gets as far as the
    counter block: a GET whose resolved path passes the prefix test and
    exists. *)
Definition counted_key (w : World) (base_dir : string) (request : Received) : option string :=
  match request with
  | RequestLine (method :: target :: _) =>
      let file_path := resolve w base_dir (unquote w target) in
      if String.eqb method "GET" && within_base w base_dir file_path
         && path_exists w file_path
      then Some file_path else None
  | _ => None
  end.

Definition counted_for (w : World) (base_dir key : string) (accepted : list Connection) : nat :=
  length (List.filter
            (fun conn => match counted_key w base_dir (received conn) with
                         | Some k => String.eqb k key
                         | None => false
                         end) accepted).

(** What the tests read off a response: status and content type. *)
Definition status_and_type (r : Response) : Z * string := (status_code r, content_type r).

(* ===================================================================== *)
(** ** [Lab 1/client.py] *)
(* ===================================================================== *)

(** The client works on the bytes of a response.  Its header block is
    decoded, stripped, lowered and read as a number with Python's text
    operations, which look at Unicode tables beyond ASCII: the model
    follows them on header blocks of ASCII bytes, the only ones the servers
    send, and answers [NotModelled] on the others. *)
Module Lab1_client.
Import PyStr.

(** [c.isspace()] for an ASCII character: tab to carriage return, the four
    separators 28 to 31, and the space. *)
Definition is_space (c : ascii) : bool :=
  let n := nat_of_ascii c in
  ((9 <=? n)%nat && (n <=? 13)%nat) || ((28 <=? n)%nat && (n <=? 32)%nat).

Definition is_digit (c : ascii) : bool :=
  let n := nat_of_ascii c in (48 <=? n)%nat && (n <=? 57)%nat.

Definition is_ascii (c : ascii) : bool := (nat_of_ascii c <? 128)%nat.

Fixpoint all_chars (p : ascii -> bool) (s : string) : bool :=
  match s with
  | EmptyString => true
  | String c s' => p c && all_chars p s'
  end.

(** [s.lstrip()], [s.rstrip()] and [s.strip()] *)
Fixpoint lstrip (s : string) : string :=
  match s with
  | String c s' => if is_space c then lstrip s' else s
  | EmptyString => EmptyString
  end.

Fixpoint rstrip (s : string) : string :=
  match s with
  | EmptyString => EmptyString
  | String c s' =>
      match rstrip s' with
      | EmptyString => if is_space c then EmptyString else String c EmptyString
      | r => String c r
      end
  end.

Definition strip (s : string) : string := rstrip (lstrip s).

(** [s[:n]] and [s[n:]] *)
Fixpoint take (n : nat) (s : string) : string :=
  match n, s with
  | S n', String c s' => String c (take n' s')
  | _, _ => EmptyString
  end.

Fixpoint drop (n : nat) (s : string) : string :=
  match n, s with
  | S n', String _ s' => drop n' s'
  | _, _ => s
  end.

(** [data.find(b"\r\n\r\n")], [None] for -1. *)
Fixpoint find_blank_line (data : string) : option nat :=
  match data with
  | EmptyString => None
  | String _ data' =>
      if startswith data (crlf +:+ crlf) then Some 0%nat
      else S <$> find_blank_line data'
  end.

Definition prepend (c : ascii) (parts : list string) : list string :=
  match parts with
  | p :: ps => String c p :: ps
  | [] => [String c EmptyString]
  end.

(** [s.split("\r\n")] *)
Fixpoint split_crlf (s : string) : list string :=
  match s with
  | EmptyString => [EmptyString]
  | String c s' =>
      match s' with
      | String d s'' =>
          if Ascii.eqb c (ascii_of_nat 13) && Ascii.eqb d (ascii_of_nat 10)
          then EmptyString :: split_crlf s''
          else prepend c (split_crlf s')
      | EmptyString => [String c EmptyString]
      end
  end.

(** [s.split(sep, maxsplit)] for a separator of one character. *)
Fixpoint split_char_max (sep : ascii) (maxsplit : nat) (s : string) : list string :=
  match s with
  | EmptyString => [EmptyString]
  | String c s' =>
      match maxsplit with
      | 0%nat => [s]
      | S m =>
          if Ascii.eqb c sep then EmptyString :: split_char_max sep m s'
          else prepend c (split_char_max sep maxsplit s')
      end
  end.

(** [s.split(sep)[0]]: what stands before the first [sep]. *)
Fixpoint before_char (sep : ascii) (s : string) : string :=
  match s with
  | EmptyString => EmptyString
  | String c s' => if Ascii.eqb c sep then EmptyString else String c (before_char sep s')
  end.

(** [sep in s] *)
Fixpoint contains_char (sep : ascii) (s : string) : bool :=
  match s with
  | EmptyString => false
  | String c s' => Ascii.eqb c sep || contains_char sep s'
  end.

(** The digits of [int(s)]: one digit or more, single underscores allowed
    between two digits. *)
Fixpoint int_digits (s : string) (acc : N) (after_digit : bool) : option N :=
  match s with
  | EmptyString => if after_digit then Some acc else None
  | String c s' =>
      if is_digit c then int_digits s' (acc * 10 + N.of_nat (nat_of_ascii c - 48))%N true
      else if Ascii.eqb c (ascii_of_nat 95) && after_digit then int_digits s' acc false
      else None
  end.

(** [int(s)] for an ASCII text: surrounding white space, an optional sign,
    the digits.  [None] stands for [ValueError]. *)
Definition py_int (s : string) : option Z :=
  match strip s with
  | String c digits =>
      if Ascii.eqb c (ascii_of_nat 43) then Z.of_N <$> int_digits digits 0%N false
      else if Ascii.eqb c (ascii_of_nat 45)
      then (fun n => (- Z.of_N n)%Z) <$> int_digits digits 0%N false
      else Z.of_N <$> int_digits (String c digits) 0%N false
  | EmptyString => None
  end.

(** The three results of [parse_http_response]: [(None, None, None)], a
    status with headers and body, or a response outside the model. *)
Inductive Parsed : Type :=
| NoResponse
| ParsedResponse (status_code : Z) (headers : gmap string string) (body : string)
| NotModelled.

(** One turn of the header loop. *)
Definition add_header (headers : gmap string string) (line : string) : gmap string string :=
  if contains_char ":" line then
    match split_char_max ":" 1 line with
    | [key; value] => <[lower (strip key) := strip value]> headers
    | _ => headers
    end
  else headers.

(** [parse_http_response(response_data)].  A status text of more than 4300
    characters is left out of the model: whether [int] reads it depends on
    the version of the interpreter. *)
Definition parse_http_response (response_data : string) : Parsed :=
  match find_blank_line response_data with
  | None => NoResponse
  | Some header_end =>
      let headers_raw := take header_end response_data in
      if negb (all_chars is_ascii headers_raw) then NotModelled
      else
        let body := drop (header_end + 4) response_data in
        let lines := split_crlf headers_raw in
        let status_line := hd EmptyString lines in
        let status_parts := split_char_max " " 2 status_line in
        match status_parts with
        | _ :: code :: _ =>
            if (4300 <? String.length code)%nat then NotModelled
            else match py_int code with
                 | None => NoResponse
                 | Some status_code =>
                     ParsedResponse status_code (fold_left add_header (tl lines) ∅) body
                 end
        | _ => NoResponse
        end
  end.

(** [get_content_type(headers)] *)
Definition get_content_type (headers : gmap string string) : string :=
  strip (before_char ";" (default EmptyString (headers !! "content-type"))).




End Lab1_client.

(** *** Responses on the wire *)

(** A character that is no carriage return. *)
Definition not_cr (c : ascii) : bool := negb (Ascii.eqb c (ascii_of_nat 13)).

(** A line of a header block: not empty, ASCII, no carriage return. *)
Definition header_line (s : string) : Prop :=
  s <> "" /\ Lab1_client.all_chars Lab1_client.is_ascii s = true
  /\ Lab1_client.all_chars not_cr s = true.

(** The four header lines [send_response] writes. *)
Definition header_lines (with_429 : bool) (r : Response) : list string :=
  [ "HTTP/1.1 " +:+ pretty (status_code r) +:+ " " +:+ status_message with_429 (status_code r);
    "Content-Type: " +:+ content_type r;
    "Content-Length: " +:+ pretty (String.length (body r));
    "Connection: close" ].

(** The statuses and content types the servers send. *)
Definition sent_statuses : list Z := [200; 400; 403; 404; 405; 429; 500]%Z.

Definition sent_types : list string :=
  ["text/html"; "text/plain"; "image/png"; "application/pdf"; "application/octet-stream"].

(** The headers the client reads off a response of the servers. *)
Definition headers_of (r : Response) : gmap string string :=
  <["connection" := "close"]>
    (<["content-length" := pretty (String.length (body r))]>
       (<["content-type" := content_type r]> ∅)).



(** *** The Hits column *)

Fixpoint no_slash (s : string) : bool :=
  match s with
  | EmptyString => true
  | String c s' => negb (Ascii.eqb c PyStr.slash) && no_slash s'
  end.

(** A name as [os.listdir] returns them: not empty, without slash, and
    neither [.] nor [..]. *)
Definition entry_name (item : string) : bool :=
  negb (String.eqb item "") && negb (String.eqb item ".") && negb (String.eqb item "..")
  && no_slash item.

(** The link [generate_directory_listing] writes for [item] in the listing
    of [url_path]. *)
Definition item_url (url_path item : string) : string :=
  if PyStr.endswith_slash url_path then url_path +:+ item else url_path +:+ "/" +:+ item.

(** The row of [item] with [hits] in the Hits column. *)
Definition row_with_hits (w : World) (dir_path url_path item hits : string) : string :=
  let display_name := if isdir w (path_join w dir_path item) then item +:+ "/" else item in
  "<tr><td><a href=" +:+ PyStr.dq +:+ item_url url_path item +:+ PyStr.dq +:+ ">"
    +:+ display_name +:+ "</a></td><td>" +:+ hits +:+ "</td></tr>" +:+ PyStr.nl.

(** The parts of [normpath]: the number of leading slashes it keeps, and
    the components it keeps. *)
Definition initial_slashes (path : string) : nat :=
  if PyStr.startswith path "/" then
    if PyStr.startswith path "//" && negb (PyStr.startswith path "///") then 2%nat else 1%nat
  else 0%nat.

Definition normpath_comps (path : string) : list string :=
  rev (fold_left (posixpath.normpath_step (initial_slashes path)) (PyStr.split_slash path) []).

Definition root_prefix (n : nat) : string :=
  match n with 0%nat => "" | 1%nat => "/" | _ => "//" end.

(** What [normpath] keeps of a component: not empty, not [.], no slash. *)
Definition kept_comp (c : string) : Prop := c <> "" /\ c <> "." /\ no_slash c = true.

(** *** Requests and answers on the wire *)

(** [s.split()] for an ASCII text: the words between runs of white space. *)
Fixpoint split_whitespace (s : string) : list string :=
  match s with
  | EmptyString => []
  | String c s' =>
      if Lab1_client.is_space c then split_whitespace s'
      else match s' with
           | String d _ =>
               if Lab1_client.is_space d then String c EmptyString :: split_whitespace s'
               else Lab1_client.prepend c (split_whitespace s')
           | EmptyString => [String c EmptyString]
           end
  end.

(** A text that [split()] keeps whole: not empty, without white space. *)
Definition is_word (s : string) : bool :=
  negb (String.eqb s "")
  && Lab1_client.all_chars (fun c => negb (Lab1_client.is_space c)) s.

(** The request [make_request] of the client sends for [path]. *)
Definition client_request (host path : string) : string :=
  "GET " +:+ path +:+ " HTTP/1.1" +:+ PyStr.crlf
    +:+ "Host: " +:+ host +:+ PyStr.crlf
    +:+ "Connection: close" +:+ PyStr.crlf
    +:+ PyStr.crlf.

(** The request [make_request] of the two test scripts sends. *)
Definition test_request (host path : string) : string :=
  "GET " +:+ path +:+ " HTTP/1.1" +:+ PyStr.crlf
    +:+ "Host: " +:+ host +:+ PyStr.crlf
    +:+ PyStr.crlf.

(** What the handlers make of the bytes [recv] returned: nothing for no
    bytes, else the words of the first line ([request.split(crlf)[0].split()]).
    Bytes beyond ASCII, which the handlers decode before they split, are
    left out of the model ([None]). *)
Definition read_request (data : string) : option Received :=
  if negb (Lab1_client.all_chars Lab1_client.is_ascii data) then None
  else Some (if String.eqb data "" then NoData
             else RequestLine
                    (split_whitespace (hd EmptyString (Lab1_client.split_crlf data)))).



(** The status [make_request] of [test_rate_limit.py] reads off the bytes
    received: [Some (Some n)] for [{'success': True, 'status': n}],
    [Some None] when [int] raises and the result is a failure, and [None]
    outside the model (a status line beyond ASCII, a status text of more
    than 4300 characters). *)
Definition test_status (response : string) : option (option Z) :=
  let status_line := hd EmptyString (Lab1_client.split_crlf response) in
  if negb (Lab1_client.all_chars Lab1_client.is_ascii status_line) then None
  else match split_whitespace status_line with
       | _ :: status_code :: _ =>
           if (4300 <? String.length status_code)%nat then None
           else Some (Lab1_client.py_int status_code)
       | _ => Some None
       end.

(** The status line [send_response] writes. *)
Definition status_line_of (with_429 : bool) (code : Z) : string :=
  "HTTP/1.1 " +:+ pretty code +:+ " " +:+ status_message with_429 code.

(* ===================================================================== *)
(** * Properties *)
(* ===================================================================== *)

(** ** The rate limiter *)

Section RateLimiter.
Implicit Types (now ts : float) (ip : string) (limits : gmap string (list float)).

Lemma filter_all_kept (f : float -> bool) (l : list float) :
  Forall (fun x => f x = true) l -> List.filter f l = l.
Proof.
  induction 1 as [|x l Hx _ IH]; simpl; [done|]. by rewrite Hx, IH.
Qed.

Lemma filter_length_le (f : float -> bool) (l : list float) :
  length (List.filter f l) <= length l.
Proof. induction l as [|x l IH]; simpl; [lia|]. destruct (f x); simpl; lia. Qed.

Lemma filter_length_lt (f : float -> bool) (l : list float) x :
  In x l -> f x = false -> length (List.filter f l) < length l.
Proof.
  induction l as [|y l IH]; simpl; [done|].
  intros [->|Hin] Hx.
  - rewrite Hx. pose proof (filter_length_le f l). lia.
  - specialize (IH Hin Hx). destruct (f y); simpl; lia.
Qed.

(** What [rate_limited] computes, with the reads of the map resolved. *)
Lemma rate_limited_eq now ip limits :
  rate_limited now ip limits =
    let pruned := List.filter (in_window now) (default [] (limits !! ip)) in
    if (5 <=? length pruned)%nat then (true, <[ip := pruned]> limits)
    else (false, <[ip := pruned ++ [now]]> limits).
Proof.
  unfold rate_limited. cbv zeta. rewrite lookup_insert_eq.
  simpl (default _ (Some _)).
  destruct (Nat.leb 5 _); [done|]. by rewrite insert_insert_eq.
Qed.

Lemma rate_limited_other now ip ip' limits :
  ip <> ip' -> snd (rate_limited now ip limits) !! ip' = limits !! ip'.
Proof.
  intros Hne. rewrite rate_limited_eq. cbv zeta.
  destruct (Nat.leb 5 _); simpl; by rewrite lookup_insert_ne.
Qed.

Lemma rate_limited_depends_on_own ip now limits1 limits2 :
  default [] (limits1 !! ip) = default [] (limits2 !! ip) ->
  fst (rate_limited now ip limits1) = fst (rate_limited now ip limits2).
Proof.
  intros Heq. rewrite !rate_limited_eq. cbv zeta. rewrite Heq.
  by destruct (Nat.leb 5 _).
Qed.

Lemma check_all_other ip ip' nows limits :
  ip <> ip' -> snd (check_all ip nows limits) !! ip' = limits !! ip'.
Proof.
  intros Hne. revert limits. induction nows as [|now nows IH]; intros limits; simpl; [done|].
  destruct (rate_limited now ip limits) as [b l1] eqn:E1.
  destruct (check_all ip nows l1) as [bs l2] eqn:E2. simpl.
  specialize (IH l1). rewrite E2 in IH. simpl in IH. rewrite IH.
  pose proof (rate_limited_other now ip ip' limits Hne) as H. by rewrite E1 in H.
Qed.

(** No address ever has more than five timestamps on record. *)
Lemma rate_limited_at_most_five now ip limits ip' :
  length (default [] (limits !! ip')) <= 5 ->
  length (default [] (snd (rate_limited now ip limits) !! ip')) <= 5.
Proof.
  intros Hle. destruct (decide (ip = ip')) as [<-|Hne].
  - rewrite rate_limited_eq. cbv zeta.
    destruct (Nat.leb 5 _) eqn:E; simpl; rewrite lookup_insert_eq; simpl.
    + etrans; [apply filter_length_le|done].
    + apply Nat.leb_gt in E. rewrite length_app. simpl. lia.
  - by rewrite rate_limited_other.
Qed.

Lemma reachable_at_most_five limits ip :
  reachable_limits limits -> length (default [] (limits !! ip)) <= 5.
Proof.
  intros [checks ->]. unfold run_checks.
  assert (length (default [] ((∅ : gmap string (list float)) !! ip)) <= 5) as H0.
  { rewrite lookup_empty. simpl. lia. }
  revert H0. generalize (∅ : gmap string (list float)).
  induction checks as [|[a t] checks IH]; intros l Hl; simpl; [done|].
  apply IH. by apply rate_limited_at_most_five.
Qed.

(** Binary64 [<] is asymmetric. *)
Lemma SFltb_asym x y : SFltb x y = true -> SFltb y x = false.
Proof.
  unfold SFltb, SFcompare.
  destruct x as [sx|sx| |sx mx ex], y as [sy|sy| |sy my ey]; simpl;
    try destruct sx; try destruct sy; simpl; try congruence;
    rewrite (Z.compare_antisym ey ex); destruct (ey ?= ex)%Z; simpl; try congruence;
    change (PosDef.Pos.compare_cont Eq my mx) with (Pos.compare my mx);
    change (PosDef.Pos.compare_cont Eq mx my) with (Pos.compare mx my);
    rewrite (Pos.compare_antisym my mx); destruct (Pos.compare my mx); simpl; congruence.
Qed.

Lemma float_ltb_asym (x y : float) : (x <? y)%float = true -> (y <? x)%float = false.
Proof. rewrite !ltb_spec. apply SFltb_asym. Qed.

(** A timestamp more than one second old is outside the window. *)
Lemma aged_not_in_window now ts :
  (1 <? now - ts)%float = true -> in_window now ts = false.
Proof. apply float_ltb_asym. Qed.

End RateLimiter.

Section RateLimiterClaims.
Implicit Types (now ts : float) (ip : string) (limits : gmap string (list float)).

Lemma check_all_app ip nows1 nows2 limits :
  check_all ip (nows1 ++ nows2) limits =
    (fst (check_all ip nows1 limits)
       ++ fst (check_all ip nows2 (snd (check_all ip nows1 limits))),
     snd (check_all ip nows2 (snd (check_all ip nows1 limits)))).
Proof.
  revert limits. induction nows1 as [|now nows1 IH]; intros limits; simpl.
  - by destruct (check_all ip nows2 limits).
  - destruct (rate_limited now ip limits) as [b l1].
    rewrite (IH l1). destruct (check_all ip nows1 l1) as [bs l2]. simpl.
    by destruct (check_all ip nows2 l2).
Qed.

Lemma burst_in_window_app before now later :
  burst_in_window (before ++ now :: later) ->
  Forall (fun t => in_window now t = true) before.
Proof.
  induction before as [|t before IH]; simpl; [by constructor|].
  intros [Hall Hrest]. constructor; [|by apply IH].
  apply Forall_app in Hall as [_ Hall]. by inversion Hall.
Qed.

(** While the record of an address has room, a burst inside one window is
    let through and recorded in full. *)
Lemma check_all_burst ip nows : forall limits,
  burst_in_window (default [] (limits !! ip) ++ nows) ->
  length (default [] (limits !! ip)) + length nows <= 5 ->
  fst (check_all ip nows limits) = replicate (length nows) false
  /\ default [] (snd (check_all ip nows limits) !! ip) = default [] (limits !! ip) ++ nows.
Proof.
  induction nows as [|now nows IH]; intros limits Hwin Hlen; simpl.
  - by rewrite app_nil_r.
  - simpl in Hlen.
    pose proof (burst_in_window_app _ _ _ Hwin) as Hkept.
    rewrite rate_limited_eq. cbv zeta. rewrite (filter_all_kept _ _ Hkept).
    destruct (Nat.leb 5 _) eqn:E; [apply Nat.leb_le in E; lia|].
    set (limits' := <[ip := default [] (limits !! ip) ++ [now]]> limits).
    assert (default [] (limits' !! ip) = default [] (limits !! ip) ++ [now]) as Hrec.
    { unfold limits'. by rewrite lookup_insert_eq. }
    destruct (IH limits') as [Hans Hstored].
    { rewrite Hrec, <- app_assoc. done. }
    { rewrite Hrec, length_app. simpl. lia. }
    destruct (check_all ip nows limits') as [bs l2]. simpl in *.
    rewrite Hans, Hstored, Hrec, <- app_assoc. done.
Qed.

(** C2 (amended).  For every address and every limiter map,
    [rate_limited] first drops the stored timestamps that are one second
    old or older: it keeps, in order, exactly those [ts] with
    [now - ts < 1].  If the pruned sequence has five entries or more it
    answers [True] (refused) and stores the pruned sequence without the
    new timestamp; otherwise it stores the pruned sequence with [now]
    appended and answers [False] (let through). *)
Theorem rate_limited_prunes_then_decides now ip limits :
  let stored := default [] (limits !! ip) in
  let pruned := List.filter (in_window now) stored in
  (forall ts, In ts pruned <-> In ts stored /\ (now - ts <? 1)%float = true)
  /\ rate_limited now ip limits =
       if (5 <=? length pruned)%nat then (true, <[ip := pruned]> limits)
       else (false, <[ip := pruned ++ [now]]> limits).
Proof.
  intros stored pruned. split.
  - intros ts. exact (filter_In (in_window now) ts stored).
  - apply rate_limited_eq.
Qed.

(** C2, as the claim words it, fails on the boundary: five timestamps
    exactly one second before [now] are not older than [now - 1s], so the
    claim's pruned sequence keeps them and the check is refused; the code
    drops them and lets the request through. *)
Lemma rate_limited_drops_one_second_old :
  let limits : gmap string (list float) :=
    {[ "10.0.0.7" := [1700000000; 1700000000; 1700000000; 1700000000; 1700000000]%float ]} in
  let now := 1700000001%float in
  older_than_window now 1700000000%float = false
  /\ check_spec now "10.0.0.7" limits = (true, limits)
  /\ rate_limited now "10.0.0.7" limits = (false, {[ "10.0.0.7" := [now] ]})
  /\ rate_limited now "10.0.0.7" limits <> check_spec now "10.0.0.7" limits.
Proof.
  cbv zeta.
  assert (check_spec 1700000001%float "10.0.0.7"
            {[ "10.0.0.7" := [1700000000; 1700000000; 1700000000; 1700000000; 1700000000]%float ]}
          = (true, {[ "10.0.0.7" := [1700000000; 1700000000; 1700000000; 1700000000; 1700000000]%float ]}))
    as Hspec.
  { unfold check_spec. rewrite lookup_singleton_eq. simpl.
    by rewrite insert_singleton_eq. }
  assert (rate_limited 1700000001%float "10.0.0.7"
            {[ "10.0.0.7" := [1700000000; 1700000000; 1700000000; 1700000000; 1700000000]%float ]}
          = (false, {[ "10.0.0.7" := [1700000001%float] ]})) as Hcode.
  { rewrite rate_limited_eq. rewrite lookup_singleton_eq. simpl.
    by rewrite insert_singleton_eq. }
  split; [reflexivity|]. split; [exact Hspec|]. split; [exact Hcode|].
  rewrite Hspec, Hcode. intros [=].
Qed.

Lemma filter_none_kept (f : float -> bool) (l : list float) :
  Forall (fun x => f x = false) l -> List.filter f l = [].
Proof.
  induction 1 as [|x l Hx _ IH]; simpl; [done|]. by rewrite Hx.
Qed.

Lemma burst_in_window_init before last :
  burst_in_window (before ++ [last]) -> burst_in_window before.
Proof.
  induction before as [|t before IH]; simpl; [done|].
  intros [Hall Hrest]. split; [|by apply IH].
  by apply Forall_app in Hall as [Hall _].
Qed.

(** C6.  For every address: the first check ever made for it is let
    through; whatever the address has on record, as long as none of it is
    inside the window of the first check of the burst (a new address, or
    one that returns after its timestamps have aged out), a burst of five
    checks inside one window is let through in full and a sixth check that
    still has the five in its window is refused; and, in any state the
    limiter can reach, once a recorded timestamp (the oldest one in
    particular) is more than one second old the next check is let
    through. *)
Theorem burst_of_five_then_sixth_refused ip :
  (forall now limits, limits !! ip = None -> fst (rate_limited now ip limits) = false)
  /\ (forall first others now limits,
        Forall (fun ts => in_window first ts = false) (default [] (limits !! ip)) ->
        length others = 4 ->
        burst_in_window (first :: others ++ [now]) ->
        fst (check_all ip (first :: others ++ [now]) limits)
        = [false; false; false; false; false; true])
  /\ (forall now ts limits,
        reachable_limits limits ->
        In ts (default [] (limits !! ip)) ->
        (1 <? now - ts)%float = true ->
        fst (rate_limited now ip limits) = false).
Proof.
  split; [|split].
  - intros now limits Hnone. rewrite rate_limited_eq, Hnone. reflexivity.
  - intros first others now limits Hstale Hlen Hwin.
    change (check_all ip (first :: others ++ [now]) limits)
      with (let '(limited, limits') := rate_limited first ip limits in
            let '(answers, limits'') := check_all ip (others ++ [now]) limits' in
            (limited :: answers, limits'')).
    rewrite rate_limited_eq. cbv zeta. rewrite (filter_none_kept _ _ Hstale).
    cbn [length Nat.leb app].
    set (limits' := <[ip := [first]]> limits).
    assert (default [] (limits' !! ip) = [first]) as Hrec.
    { unfold limits'. by rewrite lookup_insert_eq. }
    destruct (check_all_burst ip others limits') as [Hans Hstored].
    { rewrite Hrec. apply (burst_in_window_init _ now). exact Hwin. }
    { rewrite Hrec, Hlen. simpl. lia. }
    rewrite Hrec in Hstored.
    rewrite check_all_app, Hans, Hlen. cbn [fst snd].
    assert (fst (check_all ip [now] (snd (check_all ip others limits'))) = [true]) as ->.
    { cbn [check_all]. rewrite rate_limited_eq. cbv zeta. rewrite Hstored.
      rewrite (filter_all_kept _ _ (burst_in_window_app ([first] ++ others) now [] Hwin)).
      rewrite length_app, Hlen. reflexivity. }
    reflexivity.
  - intros now ts limits Hreach Hin Hold.
    rewrite rate_limited_eq. cbv zeta.
    pose proof (reachable_at_most_five limits ip Hreach) as Hfive.
    pose proof (filter_length_lt (in_window now) _ ts Hin (aged_not_in_window _ _ Hold)) as Hlt.
    destruct (Nat.leb 5 _) eqn:E; [apply Nat.leb_le in E; lia|done].
Qed.

(** C9.  For distinct addresses A and B, any sequence of checks for B
    leaves A's record as it was and with it the answer of the next check
    for A; that answer is a function of the timestamps recorded for A
    alone. *)
Theorem limiter_addresses_independent a b :
  a <> b ->
  forall nows now limits,
    snd (check_all b nows limits) !! a = limits !! a
    /\ fst (rate_limited now a (snd (check_all b nows limits))) = fst (rate_limited now a limits)
    /\ (forall limits',
          default [] (limits' !! a) = default [] (limits !! a) ->
          fst (rate_limited now a limits') = fst (rate_limited now a limits)).
Proof.
  intros Hne nows now limits.
  assert (snd (check_all b nows limits) !! a = limits !! a) as Hsame.
  { apply check_all_other. congruence. }
  split; [done|]. split.
  - apply rate_limited_depends_on_own. by rewrite Hsame.
  - intros limits' Heq. by apply rate_limited_depends_on_own.
Qed.

End RateLimiterClaims.

(** C6 at a concrete address: a first check; the burst of six from an
    address that returns with two timestamps on record, both aged out; and
    a check made 1.25 s after the oldest of five recorded timestamps. *)
Lemma burst_of_five_then_sixth_refused_witness :
  fst (rate_limited 100 "10.0.0.7" ∅) = false
  /\ fst (check_all "10.0.0.7" (100 :: [100.125; 100.25; 100.375; 100.5] ++ [100.75])%float
            {[ "10.0.0.7" := [98; 98.5]%float ]})
     = [false; false; false; false; false; true]
  /\ fst (rate_limited 101.25 "10.0.0.7" busy_limits) = false.
Proof.
  destruct (burst_of_five_then_sixth_refused "10.0.0.7") as (Hfirst & Hburst & Haged).
  split; [|split].
  - apply Hfirst. reflexivity.
  - apply Hburst; [|reflexivity|].
    + rewrite lookup_singleton_eq. simpl. repeat constructor.
    + simpl. repeat (split; [repeat constructor|]). exact I.
  - apply (Haged 101.25%float 100%float busy_limits).
    + exists [("10.0.0.7", 100%float); ("10.0.0.7", 100.125%float);
              ("10.0.0.7", 100.25%float); ("10.0.0.7", 100.375%float);
              ("10.0.0.7", 100.5%float)].
      vm_compute. reflexivity.
    + vm_compute. left. reflexivity.
    + reflexivity.
Defined.

(** C9 at two concrete addresses: two checks for the second leave the answer
    for the first, whose record is full, as it was. *)
Lemma limiter_addresses_independent_witness :
  "10.0.0.7" <> "10.0.0.8"
  /\ fst (rate_limited 100.75 "10.0.0.7"
            (snd (check_all "10.0.0.8" [100.5; 100.625]%float busy_limits)))
     = fst (rate_limited 100.75 "10.0.0.7" busy_limits).
Proof.
  assert ("10.0.0.7" <> "10.0.0.8") as Hne by discriminate.
  split; [exact Hne|].
  exact (proj1 (proj2 (limiter_addresses_independent "10.0.0.7" "10.0.0.8" Hne
                         [100.5; 100.625]%float 100.75%float busy_limits))).
Defined.

(** ** The connection handler of the unified server *)

Section Handler.
Implicit Types (w : World) (mode : Mode) (now : float) (st : State).
Implicit Types (ip base_dir method target : string).

(** [handle_client] on a request line of two words or more, step by step. *)
Lemma handle_client_request_line mode w now ip base_dir method target rest st :
  handle_client mode w now ip base_dir (RequestLine (method :: target :: rest)) st =
    let url_path := unquote w target in
    let checked := rate_check mode now ip (rate_limits st) in
    let st1 := {| file_hits := file_hits st; rate_limits := snd checked |} in
    if fst checked then (Some too_many_requests, st1)
    else if negb (String.eqb method "GET") then (Some method_not_allowed, st1)
    else
      let file_path := resolve w base_dir url_path in
      if negb (within_base w base_dir file_path) then (Some forbidden, st1)
      else if negb (path_exists w file_path) then (Some not_found, st1)
      else
        let hits' := counter_update mode file_path (file_hits st) in
        (Some (serve w mode hits' file_path url_path),
         {| file_hits := hits'; rate_limits := snd checked |}).
Proof.
  unfold handle_client. by destruct (rate_check mode now ip (rate_limits st)) as [[] limits].
Qed.

Lemma handle_client_short_line mode w now ip base_dir request_line st :
  length request_line < 2 ->
  handle_client mode w now ip base_dir (RequestLine request_line) st = (Some bad_request, st).
Proof.
  destruct request_line as [|method [|target rest]]; simpl; [done|done|lia].
Qed.


Lemma rate_check_ratelimit now ip limits :
  rate_check ratelimit now ip limits = rate_limited now ip limits.
Proof. reflexivity. Qed.

Lemma rate_check_passes mode now ip limits :
  mode <> ratelimit -> rate_check mode now ip limits = (false, limits).
Proof. by destruct mode. Qed.

(** Run alone, the counter block adds one to the entry of its key in the
    counting modes and does nothing in the others. *)
Lemma counter_update_counts mode key (file_hits : gmap string Z) :
  counts_hits mode = true ->
  counter_update mode key file_hits = <[key := (default 0 (file_hits !! key) + 1)%Z]> file_hits.
Proof. by destruct mode. Qed.

Lemma counter_update_idle mode key (file_hits : gmap string Z) :
  counts_hits mode = false -> counter_update mode key file_hits = file_hits.
Proof. by destruct mode. Qed.

Lemma serve_status w mode hits_now file_path url_path :
  let r := serve w mode hits_now file_path url_path in
  status_code r = 200%Z \/ status_code r = 404%Z \/ status_code r = 500%Z.
Proof.
  unfold serve. cbv zeta. destruct (isdir w file_path); [by left|].
  destruct (negb _); [by right; left|].
  destruct (read_file w file_path); [by left|by right; right].
Qed.

(** C4.  In [ratelimit] mode, a request that the rate check refuses is
    answered 429; the hit counter store is left as it was, entry by entry,
    and nothing of the served root or of the file system enters the
    outcome: the handler resolves no path. *)
Theorem refused_request_429_counter_untouched w now ip base_dir method target rest st :
  fst (rate_limited now ip (rate_limits st)) = true ->
  let request := RequestLine (method :: target :: rest) in
  let out := handle_client ratelimit w now ip base_dir request st in
  fst out = Some too_many_requests
  /\ status_code too_many_requests = 429%Z
  /\ file_hits (snd out) = file_hits st
  /\ (forall key, file_hits (snd out) !! key = file_hits st !! key)
  /\ rate_limits (snd out) = snd (rate_limited now ip (rate_limits st))
  /\ (forall w' base_dir', handle_client ratelimit w' now ip base_dir' request st = out).
Proof.
  intros Hrefused request out.
  assert (forall w' base_dir',
            handle_client ratelimit w' now ip base_dir' request st
            = (Some too_many_requests,
               {| file_hits := file_hits st;
                  rate_limits := snd (rate_limited now ip (rate_limits st)) |})) as Hout.
  { intros w' base_dir'. unfold request. rewrite handle_client_request_line. cbv zeta.
    rewrite rate_check_ratelimit, Hrefused. reflexivity. }
  unfold out. repeat split; try (rewrite Hout; reflexivity).
  intros w' base_dir'. by rewrite !Hout.
Qed.

(** C10.  In [ratelimit] mode the rate check comes before the method check:
    a refused request is answered 429 even when its method is not GET, and
    whenever the answer is 405 the rate check has let the request through
    (and has recorded its timestamp). *)
Theorem rate_check_before_method_check w now ip base_dir st :
  (forall method target rest,
      method <> "GET" ->
      fst (rate_limited now ip (rate_limits st)) = true ->
      fst (handle_client ratelimit w now ip base_dir (RequestLine (method :: target :: rest)) st)
      = Some too_many_requests)
  /\ (forall request r,
        fst (handle_client ratelimit w now ip base_dir request st) = Some r ->
        status_code r = 405%Z ->
        fst (rate_limited now ip (rate_limits st)) = false
        /\ rate_limits (snd (handle_client ratelimit w now ip base_dir request st))
           = snd (rate_limited now ip (rate_limits st))
        /\ exists method target rest,
             request = RequestLine (method :: target :: rest) /\ method <> "GET").
Proof.
  split.
  - intros method target rest _ Hrefused.
    rewrite handle_client_request_line. cbv zeta.
    by rewrite rate_check_ratelimit, Hrefused.
  - intros request r Hout H405.
    destruct request as [|[|method [|target rest]]];
      [ done
      | simpl in Hout; injection Hout as <-; simpl in H405; lia
      | simpl in Hout; injection Hout as <-; simpl in H405; lia
      | ].
    rewrite handle_client_request_line in Hout |- *. cbv zeta in Hout |- *.
    change (rate_check ratelimit now ip (rate_limits st))
      with (rate_limited now ip (rate_limits st)) in Hout |- *.
    destruct (fst (rate_limited now ip (rate_limits st))) eqn:Hcheck.
    { injection Hout as <-. simpl in H405. lia. }
    split; [done|].
    destruct (negb (String.eqb method "GET")) eqn:Hm.
    { split; [done|]. exists method, target, rest. split; [done|].
      apply negb_true_iff in Hm. by apply String.eqb_neq. }
    exfalso. simpl in Hout.
    destruct (negb (within_base _ _ _)); [injection Hout as <-; simpl in H405; lia|].
    destruct (negb (path_exists _ _)); [injection Hout as <-; simpl in H405; lia|].
    injection Hout as <-.
    match type of H405 with status_code (serve ?a ?b ?c ?d ?e) = _ =>
      destruct (serve_status a b c d e) as [H|[H|H]] end; lia.
Qed.

(** C3 (amended).  In the counting modes ([race], [threadsafe],
    [ratelimit]), a GET that passes the rate check and resolves to an
    existing path inside the root has the counter of that path incremented
    by one before the response is built, whether the path is a directory,
    then served as a listing with status 200, or a file. *)
Theorem counter_incremented_for_directory_and_file mode w now ip base_dir target rest st :
  counts_hits mode = true ->
  fst (rate_check mode now ip (rate_limits st)) = false ->
  let url_path := unquote w target in
  let file_path := resolve w base_dir url_path in
  within_base w base_dir file_path = true ->
  path_exists w file_path = true ->
  let out := handle_client mode w now ip base_dir (RequestLine ("GET" :: target :: rest)) st in
  file_hits (snd out)
    = <[file_path := (default 0 (file_hits st !! file_path) + 1)%Z]> (file_hits st)
  /\ fst out = Some (serve w mode (file_hits (snd out)) file_path url_path)
  /\ (isdir w file_path = true ->
      fst out = Some {| status_code := 200; content_type := "text/html";
                        body := generate_directory_listing w mode (file_hits (snd out))
                                  file_path url_path |}).
Proof.
  intros Hmode Hcheck url_path file_path Hin Hex out.
  unfold out. rewrite handle_client_request_line. cbv zeta.
  fold url_path. fold file_path. rewrite Hcheck, Hin, Hex. simpl.
  rewrite (counter_update_counts _ _ _ Hmode).
  split; [done|]. split; [done|].
  intros Hdir. unfold serve. by rewrite Hdir.
Qed.

(** C3, as the claim words it, fails: a GET for the root directory is served
    as a listing and the counter of the directory goes from no entry to 1,
    in each of the three counting modes. *)
Lemma directory_request_is_counted :
  let request := RequestLine ["GET"; "/"; "HTTP/1.1"] in
  let out mode := handle_client mode example_world 100 "10.0.0.7" "/srv/www" request fresh_state in
  resolve example_world "/srv/www" "/" = "/srv/www"
  /\ isdir example_world "/srv/www" = true
  /\ file_hits fresh_state !! "/srv/www" = None
  /\ (status_code <$> fst (out race)) = Some 200%Z
  /\ file_hits (snd (out race)) !! "/srv/www" = Some 1%Z
  /\ (status_code <$> fst (out threadsafe)) = Some 200%Z
  /\ file_hits (snd (out threadsafe)) !! "/srv/www" = Some 1%Z
  /\ (status_code <$> fst (out ratelimit)) = Some 200%Z
  /\ file_hits (snd (out ratelimit)) !! "/srv/www" = Some 1%Z.
Proof. cbv zeta. repeat (split; [vm_compute; reflexivity|]). vm_compute. reflexivity. Qed.

End Handler.

Section HandlerStatus.
Implicit Types (w : World) (mode : Mode) (now : float) (st : State).
Implicit Types (ip base_dir method target : string).



(** C5.  The claim fails on the code by a slip of the root test, which
    compares the two absolute paths as texts ([startswith]) where the
    handlers mean to keep every request inside the root.  With root
    [/srv/www] and a directory [/srv/www-secret] beside it, the path
    [/docs/../../www-secret/key.html] has parent-directory segments and
    resolves to [/srv/www-secret/key.html], which is neither the root nor
    below it; a GET for it is answered 200 with the content of the file,
    not 403, by the unified server in each of its five modes, by the
    multithreaded server and by the Lab 1 server. *)
Lemma traversal_into_sibling_is_served :
  let url_path := "/docs/../../www-secret/key.html" in
  let request := RequestLine ["GET"; url_path; "HTTP/1.1"] in
  let served := {| status_code := 200; content_type := "text/html"; body := "secret" |} in
  has_parent_segment url_path = true
  /\ abspath example_world (resolve example_world "/srv/www" url_path)
     = "/srv/www-secret/key.html"
  /\ under_root (abspath example_world "/srv/www") "/srv/www-secret/key.html" = false
  /\ (forall mode,
        fst (handle_client mode example_world 100 "10.0.0.7" "/srv/www" request fresh_state)
        = Some served)
  /\ Lab2_server_multithreaded.handle_client example_world "/srv/www" request = Some served
  /\ Lab1_server.handle_request example_world "/srv/www" (Ok request) = Some served
  /\ status_code served <> 403%Z.
Proof.
  cbv zeta. repeat (split; [vm_compute; reflexivity|]).
  split; [by intros []; vm_compute|].
  repeat (split; [vm_compute; reflexivity|]). discriminate.
Qed.

(** The prefix test compares texts, not path components: a directory beside
    the root whose name extends the root's passes it.  With root
    [/srv/www], the path [/../www-secret/key.html] resolves to
    [/srv/www-secret/key.html], outside the root, and the three servers
    answer 200 with the file. *)
Lemma sibling_of_root_passes_prefix_test :
  let url_path := "/../www-secret/key.html" in
  let request := RequestLine ["GET"; url_path; "HTTP/1.1"] in
  let served := Some {| status_code := 200; content_type := "text/html"; body := "secret" |} in
  has_parent_segment url_path = true
  /\ abspath example_world (resolve example_world "/srv/www" url_path)
     = "/srv/www-secret/key.html"
  /\ under_root (abspath example_world "/srv/www") "/srv/www-secret/key.html" = false
  /\ within_base example_world "/srv/www" (resolve example_world "/srv/www" url_path) = true
  /\ fst (handle_client multi example_world 100 "10.0.0.7" "/srv/www" request fresh_state)
     = served
  /\ fst (handle_client ratelimit example_world 100 "10.0.0.7" "/srv/www" request fresh_state)
     = served
  /\ Lab2_server_multithreaded.handle_client example_world "/srv/www" request = served
  /\ Lab1_server.handle_request example_world "/srv/www" (Ok request) = served.
Proof. cbv zeta. repeat (split; [vm_compute; reflexivity|]). vm_compute. reflexivity. Qed.

End HandlerStatus.

(** ** The hit counter under concurrent handlers *)

Section Counter.
Implicit Types (c : Counter) (t : Thread) (ts : list Thread) (k key : string).

Lemma count_if_middle (f : Thread -> bool) l1 t l2 :
  count_if f (l1 ++ t :: l2)
  = (count_if f l1 + (if f t then 1 else 0) + count_if f l2)%nat.
Proof.
  unfold count_if. rewrite List.filter_app, length_app. simpl.
  destruct (f t); simpl; lia.
Qed.

Lemma count_if_zero (f : Thread -> bool) ts :
  count_if f ts = 0%nat -> Forall (fun t => f t = false) ts.
Proof.
  unfold count_if. induction ts as [|t ts IH]; simpl; [by constructor|].
  destruct (f t) eqn:E; simpl; [lia|]. intros H. constructor; [done|by apply IH].
Qed.

Lemma has_read_holds t : has_read t = true -> holds_lock t = true.
Proof.
  unfold has_read, holds_lock. intros H. apply andb_true_iff in H as [H1 H2].
  apply Nat.leb_le in H1, H2. apply andb_true_iff. split; apply Nat.leb_le; lia.
Qed.

(** The next statement of a well placed thread, by what it has left. *)
Lemma well_placed_next t a rest :
  well_placed t -> todo t = a :: rest ->
  (a = Acquire /\ rest = [ReadCount; Sleep; WriteCount; Release])
  \/ (a = ReadCount /\ rest = [Sleep; WriteCount; Release])
  \/ (a = Sleep /\ rest = [WriteCount; Release])
  \/ (a = WriteCount /\ rest = [Release])
  \/ (a = Release /\ rest = []).
Proof.
  unfold well_placed. intros Hwp Htodo. rewrite Htodo in Hwp.
  destruct rest as [|a1 [|a2 [|a3 [|a4 [|a5 rest]]]]]; simpl in Hwp;
    inversion Hwp; subst; auto 10.
Qed.

Lemma spawn_inv mode hits0 keys :
  mode = threadsafe \/ mode = ratelimit ->
  counter_inv hits0 keys ({| hits := hits0; locked := false |}, spawn mode keys).
Proof.
  intros Hmode.
  assert (counter_path mode = locked_path) as Hpath by (by destruct Hmode as [-> | ->]).
  unfold counter_inv, spawn. rewrite Hpath. simpl.
  split; [|split; [|split; [|split]]].
  - rewrite map_map. simpl. apply map_id.
  - apply Forall_map. by apply Forall_true.
  - unfold count_if. induction keys; simpl; [done|]. done.
  - apply Forall_map. apply Forall_true. intros k. simpl. done.
  - intros k. replace (count_if (written_for k) _) with 0%nat; [lia|].
    unfold count_if. induction keys; simpl; done.
Qed.

(** Decide a flag of a thread whose [todo] is known. *)
Ltac settle_flag flag Htodo :=
  let E := fresh "E" in
  destruct flag eqn:E;
  unfold holds_lock, has_read, has_written in E; simpl in E;
  try rewrite Htodo in E; simpl in E; try discriminate E; clear E.

(** One step of any thread keeps the invariant. *)
Lemma step_inv hits0 keys s s' :
  counter_inv hits0 keys s -> step s s' -> counter_inv hits0 keys s'.
Proof.
  intros Hinv Hstep. destruct Hstep as [c c' cur' l1 t l2 a rest Htodo Hen Hexec].
  destruct Hinv as (Hkeys & Hwp & Hlock & Hread & Hcount).
  apply Forall_app in Hwp as [Hwp1 Hwp2]. apply Forall_cons in Hwp2 as [Hwpt Hwp2].
  apply Forall_app in Hread as [Hread1 Hread2].
  apply Forall_cons in Hread2 as [Hreadt Hread2].
  rewrite count_if_middle in Hlock.
  assert (forall cur0 rest0,
            map file_path (l1 ++ thread_at (file_path t) cur0 rest0 :: l2) = keys) as Hkeys'.
  { intros cur0 rest0. rewrite <- Hkeys, !map_app. done. }
  assert (forall (f : Thread -> bool) t',
            f t' = f t -> count_if f (l1 ++ t' :: l2) = count_if f (l1 ++ t :: l2)) as Hsame.
  { intros f t' Hf. by rewrite !count_if_middle, Hf. }
  assert (holds_lock t = true ->
          locked c = true
          /\ count_if holds_lock l1 = 0%nat /\ count_if holds_lock l2 = 0%nat
          /\ Forall (fun t0 => has_read t0 = false) l1
          /\ Forall (fun t0 => has_read t0 = false) l2) as Halone.
  { intros Hh. rewrite Hh in Hlock. destruct (locked c); [|lia].
    split; [done|].
    assert (count_if holds_lock l1 = 0%nat) as H1 by lia.
    assert (count_if holds_lock l2 = 0%nat) as H2 by lia.
    split; [done|]. split; [done|].
    split; [apply count_if_zero in H1 as Hz|apply count_if_zero in H2 as Hz];
      (eapply Forall_impl; [exact Hz|]); simpl;
      intros t0 Hno; (destruct (has_read t0) eqn:E; [|done]);
      apply has_read_holds in E; congruence. }
  assert (forall (h : gmap string Z) l,
            Forall (fun t0 => has_read t0 = false) l ->
            Forall (fun t0 => has_read t0 = true ->
                              current_count t0 = default 0%Z (h !! file_path t0)) l) as Hvac.
  { intros h l Hl. eapply Forall_impl; [exact Hl|]. simpl. intros t0 -> [=]. }
  assert (forall k cur0 rest0,
            has_written (thread_at (file_path t) cur0 rest0) = has_written t ->
            written_for k (thread_at (file_path t) cur0 rest0) = written_for k t) as Hwr.
  { intros k cur0 rest0 Hw. unfold written_for. by rewrite Hw. }
  fold (thread_at (file_path t) cur' rest).
  destruct (well_placed_next t a rest Hwpt Htodo)
    as [[-> ->]|[[-> ->]|[[-> ->]|[[-> ->]|[-> ->]]]]];
    simpl in Hen, Hexec; injection Hexec as <- <-;
    settle_flag (holds_lock t) Htodo; settle_flag (has_read t) Htodo.
  - (* Acquire *)
    apply negb_true_iff in Hen. rewrite Hen in Hlock.
    split; [apply Hkeys'|]. split; [|split; [|split]].
    + apply Forall_app. split; [done|]. by constructor.
    + rewrite count_if_middle. simpl. lia.
    + apply Forall_app. split; [done|]. constructor; [|done]. simpl. done.
    + intros k. simpl. rewrite Hsame; [apply Hcount|].
      apply Hwr. unfold has_written. by rewrite Htodo.
  - (* ReadCount *)
    split; [apply Hkeys'|]. split; [|split; [|split]].
    + apply Forall_app. split; [done|]. by constructor.
    + rewrite count_if_middle. simpl. done.
    + apply Forall_app. split; [done|]. constructor; [|done]. simpl. done.
    + intros k. rewrite Hsame; [apply Hcount|].
      apply Hwr. unfold has_written. by rewrite Htodo.
  - (* Sleep *)
    split; [apply Hkeys'|]. split; [|split; [|split]].
    + apply Forall_app. split; [done|]. by constructor.
    + rewrite count_if_middle. simpl. done.
    + apply Forall_app. split; [done|]. constructor; [|done]. simpl.
      intros _. by apply Hreadt.
    + intros k. rewrite Hsame; [apply Hcount|].
      apply Hwr. unfold has_written. by rewrite Htodo.
  - (* WriteCount *)
    destruct (Halone eq_refl) as (Hheld & Hz1 & Hz2 & Hno1 & Hno2).
    specialize (Hreadt eq_refl).
    split; [apply Hkeys'|]. split; [|split; [|split]].
    + apply Forall_app. split; [done|]. by constructor.
    + rewrite count_if_middle. simpl. done.
    + apply Forall_app. split; [by apply Hvac|]. constructor; [|by apply Hvac].
      simpl. intros [=].
    + intros k. simpl. specialize (Hcount k).
      rewrite count_if_middle in Hcount |- *.
      assert (written_for k t = false) as Ew.
      { unfold written_for, has_written. by rewrite Htodo. }
      rewrite Ew in Hcount.
      unfold written_for at 2. unfold has_written. simpl.
      destruct (String.eqb (file_path t) k) eqn:Ek.
      * apply String.eqb_eq in Ek as <-. rewrite lookup_insert_eq. simpl.
        rewrite Hreadt, Hcount. lia.
      * apply String.eqb_neq in Ek. rewrite lookup_insert_ne by done. lia.
  - (* Release *)
    destruct (Halone eq_refl) as (Hheld & Hz1 & Hz2 & Hno1 & Hno2).
    split; [apply Hkeys'|]. split; [|split; [|split]].
    + apply Forall_app. split; [done|]. by constructor.
    + rewrite count_if_middle. simpl. lia.
    + apply Forall_app. split; [done|]. constructor; [|done]. simpl. intros [=].
    + intros k. simpl. rewrite Hsame; [apply Hcount|].
      apply Hwr. unfold has_written. by rewrite Htodo.
Qed.

Lemma steps_inv hits0 keys s s' :
  counter_inv hits0 keys s -> rtc step s s' -> counter_inv hits0 keys s'.
Proof. intros Hinv Hsteps. induction Hsteps; eauto using step_inv. Qed.

(** When every thread is done, each has written. *)
Lemma finished_written k ts :
  finished ts -> count_if (written_for k) ts = occurrences k (map file_path ts).
Proof.
  unfold finished, count_if, occurrences.
  induction 1 as [|t ts Ht _ IH]; simpl; [done|].
  unfold written_for at 1. unfold has_written. rewrite Ht. simpl.
  destruct (String.eqb (file_path t) k); simpl; by rewrite IH.
Qed.

Lemma occurrences_replicate k n : occurrences k (replicate n k) = n.
Proof.
  unfold occurrences. induction n as [|n IH]; simpl; [done|].
  rewrite String.eqb_refl. simpl. by rewrite IH.
Qed.

(** Every completed run of the locked modes counts every increment. *)
Lemma locked_counter_exact mode hits0 keys c' ts' :
  mode = threadsafe \/ mode = ratelimit ->
  rtc step ({| hits := hits0; locked := false |}, spawn mode keys) (c', ts') ->
  finished ts' ->
  forall k, default 0%Z (hits c' !! k)
            = (default 0%Z (hits0 !! k) + Z.of_nat (occurrences k keys))%Z.
Proof.
  intros Hmode Hsteps Hdone k.
  pose proof (steps_inv hits0 keys _ _ (spawn_inv mode hits0 keys Hmode) Hsteps) as Hinv.
  destruct Hinv as (Hkeys & _ & _ & _ & Hcount).
  by rewrite Hcount, (finished_written k ts' Hdone), Hkeys.
Qed.

End Counter.

Section CounterClaims.
Implicit Types (c : Counter) (t : Thread) (ts : list Thread) (k key : string).

(** A block that one thread can run unblocked is an execution of the
    interleaved system in which only that thread moves. *)
Lemma thread_runs l1 l2 key acts : forall cur c,
  runs_unblocked acts key cur c = true ->
  rtc step (c, l1 ++ thread_at key cur acts :: l2)
           (fst (run acts key cur c),
            l1 ++ thread_at key (snd (run acts key cur c)) [] :: l2).
Proof.
  induction acts as [|a acts IH]; intros cur c Hrun; simpl in *; [apply rtc_refl|].
  apply andb_true_iff in Hrun as [Hen Hrun].
  destruct (exec a key cur c) as [c1 cur1] eqn:Hexec.
  eapply rtc_l; [|apply IH, Hrun].
  by apply (step_thread c c1 cur1 l1 (thread_at key cur (a :: acts)) l2 a acts).
Qed.

Lemma counter_path_unblocked mode key cur c :
  locked c = false ->
  runs_unblocked (counter_path mode) key cur c = true
  /\ locked (fst (run (counter_path mode) key cur c)) = false
  /\ hits (fst (run (counter_path mode) key cur c)) = counter_update mode key (hits c).
Proof. intros Hfree. destruct c as [h l]. simpl in Hfree. subst l. by destruct mode. Qed.

(** Whatever the mode, the handlers can run their counter blocks one after
    the other, and then every thread completes. *)
Lemma sequential_schedule mode keys : forall before c,
  locked c = false ->
  exists c' ts',
    rtc step (c, before ++ spawn mode keys) (c', before ++ ts')
    /\ finished ts'
    /\ locked c' = false
    /\ hits c' = fold_left (fun h k => counter_update mode k h) keys (hits c).
Proof.
  induction keys as [|k keys IH]; intros before c Hfree; simpl.
  - exists c, []. split; [apply rtc_refl|]. split; [constructor|done].
  - destruct (counter_path_unblocked mode k 0%Z c Hfree) as (Hrun & Hfree' & Hhits).
    pose proof (thread_runs before (spawn mode keys) k (counter_path mode) 0%Z c Hrun) as Hk.
    set (c1 := fst (run (counter_path mode) k 0%Z c)) in *.
    set (t1 := thread_at k (snd (run (counter_path mode) k 0%Z c)) []) in *.
    destruct (IH (before ++ [t1]) c1 Hfree') as (c' & ts' & Hrest & Hdone & Hfree'' & Hhits').
    exists c', (t1 :: ts'). split; [|split; [|split]].
    + rewrite <- !app_assoc in Hrest. simpl in Hrest.
      eapply rtc_trans; [exact Hk|exact Hrest].
    + by constructor.
    + done.
    + by rewrite Hhits', Hhits.
Qed.

(** C1.  For every N, in [threadsafe] and [ratelimit] mode: when N handler
    threads run the counter block for one key, each statement of a thread
    possibly separated from the next by statements of the others, and all N
    have completed, the count stored for the key is its initial count plus
    N, so exactly N on a fresh store.  The statement holds for every
    execution, that is for every interleaving the lock allows. *)
Theorem locked_increments_all_counted mode n key hits0 c' ts' :
  mode = threadsafe \/ mode = ratelimit ->
  rtc step ({| hits := hits0; locked := false |}, spawn mode (replicate n key)) (c', ts') ->
  finished ts' ->
  default 0%Z (hits c' !! key) = (default 0%Z (hits0 !! key) + Z.of_nat n)%Z
  /\ (hits0 !! key = None -> default 0%Z (hits c' !! key) = Z.of_nat n).
Proof.
  intros Hmode Hsteps Hdone.
  pose proof (locked_counter_exact mode hits0 _ c' ts' Hmode Hsteps Hdone key) as Hexact.
  rewrite occurrences_replicate in Hexact.
  split; [done|]. intros Hnone. rewrite Hexact, Hnone. simpl. lia.
Qed.

(** C7.  The counter block of [race] mode is read, delay, write; the block
    of [threadsafe] mode, which [ratelimit] mode shares, is the same three
    statements between the acquire and the release of [counter_lock], and
    nothing else.  Run by one handler with no other in between, from a free
    lock, both blocks run unblocked, leave the lock free and compute the
    same function on the store: one more for the key.  The two modes then
    answer every request alike. *)
Theorem race_and_threadsafe_differ_by_lock_only :
  counter_path race = [ReadCount; Sleep; WriteCount]
  /\ counter_path ratelimit = counter_path threadsafe
  /\ counter_path threadsafe = Acquire :: counter_path race ++ [Release]
  /\ without_lock (counter_path threadsafe) = counter_path race
  /\ (forall key cur (file_hits : gmap string Z),
        let c := {| hits := file_hits; locked := false |} in
        runs_unblocked (counter_path race) key cur c = true
        /\ runs_unblocked (counter_path threadsafe) key cur c = true
        /\ run (counter_path threadsafe) key cur c = run (counter_path race) key cur c
        /\ fst (run (counter_path race) key cur c)
           = {| hits := <[key := (default 0 (file_hits !! key) + 1)%Z]> file_hits;
                locked := false |})
  /\ (forall key (file_hits : gmap string Z),
        counter_update race key file_hits = counter_update threadsafe key file_hits)
  /\ (forall w now ip base_dir request st,
        handle_client race w now ip base_dir request st
        = handle_client threadsafe w now ip base_dir request st).
Proof.
  split; [done|]. split; [done|]. split; [done|]. split; [done|].
  split; [by intros key cur file_hits|]. split; [done|].
  intros w now ip base_dir request st.
  destruct request as [|[|method [|target rest]]]; reflexivity.
Qed.

(** In [race] mode two increments of one key can leave the count at 1: both
    threads read before either writes. *)
Lemma race_loses_an_update :
  exists c' ts',
    rtc step ({| hits := ∅; locked := false |}, spawn race ["/srv/www/index.html"; "/srv/www/index.html"])
             (c', ts')
    /\ finished ts'
    /\ hits c' !! "/srv/www/index.html" = Some 1%Z.
Proof.
  eexists _, _. split.
  - unfold spawn. simpl.
    eapply rtc_l; [eapply (step_thread _ _ _ [] _ [_]); reflexivity|]. simpl.
    eapply rtc_l; [eapply (step_thread _ _ _ [_] _ []); reflexivity|]. simpl.
    eapply rtc_l; [eapply (step_thread _ _ _ [] _ [_]); reflexivity|]. simpl.
    eapply rtc_l; [eapply (step_thread _ _ _ [] _ [_]); reflexivity|]. simpl.
    eapply rtc_l; [eapply (step_thread _ _ _ [_] _ []); reflexivity|]. simpl.
    eapply rtc_l; [eapply (step_thread _ _ _ [_] _ []); reflexivity|]. simpl.
    apply rtc_refl.
  - split; [by repeat constructor|]. vm_compute. reflexivity.
Qed.

End CounterClaims.

(** C1 with two threads on one key of a fresh store: the second thread runs
    its block first, then the first; the count is 2. *)
Lemma locked_increments_all_counted_witness :
  exists c' ts',
    rtc step ({| hits := ∅; locked := false |},
              spawn threadsafe (replicate 2 "/srv/www/index.html")) (c', ts')
    /\ finished ts'
    /\ default 0%Z (hits c' !! "/srv/www/index.html") = 2%Z.
Proof.
  pose (key := "/srv/www/index.html").
  pose (c0 := {| hits := (∅ : gmap string Z); locked := false |}).
  pose (c1 := fst (run locked_path key 0%Z c0)).
  pose (c2 := fst (run locked_path key 0%Z c1)).
  pose (t1 := thread_at key (snd (run locked_path key 0%Z c1)) []).
  pose (t2 := thread_at key (snd (run locked_path key 0%Z c0)) []).
  assert (rtc step (c0, spawn threadsafe (replicate 2 key)) (c2, [t1; t2])) as Hrun.
  { eapply rtc_trans.
    - exact (thread_runs [thread_at key 0%Z locked_path] [] key locked_path 0%Z c0 eq_refl).
    - exact (thread_runs [] [t2] key locked_path 0%Z c1 eq_refl). }
  assert (finished [t1; t2]) as Hdone by (by repeat constructor).
  exists c2, [t1; t2]. split; [exact Hrun|]. split; [exact Hdone|].
  exact (proj2 (locked_increments_all_counted threadsafe 2 key ∅ c2 [t1; t2]
                  (or_introl eq_refl) Hrun Hdone) eq_refl).
Defined.

(** ** The handler properties at concrete requests *)

(** C4 at a GET from an address whose five timestamps are all within the
    last second. *)
Lemma refused_request_429_counter_untouched_witness :
  let out := handle_client ratelimit example_world 100.75 "10.0.0.7" "/srv/www"
               (RequestLine ["GET"; "/index.html"; "HTTP/1.1"]) busy_state in
  fst (rate_limited 100.75 "10.0.0.7" (rate_limits busy_state)) = true
  /\ fst out = Some too_many_requests
  /\ file_hits (snd out) = file_hits busy_state.
Proof.
  assert (fst (rate_limited 100.75 "10.0.0.7" (rate_limits busy_state)) = true) as Hrefused.
  { vm_compute. reflexivity. }
  pose proof (refused_request_429_counter_untouched example_world 100.75 "10.0.0.7"
                "/srv/www" "GET" "/index.html" ["HTTP/1.1"] busy_state Hrefused) as Hw.
  cbv zeta in Hw. destruct Hw as (Hout & _ & Hhits & _).
  cbv zeta. split; [exact Hrefused|]. split; [exact Hout|exact Hhits].
Defined.

(** C10 at a POST from the same address: 429, not 405. *)
Lemma rate_check_before_method_check_witness :
  "POST" <> "GET"
  /\ fst (rate_limited 100.75 "10.0.0.7" (rate_limits busy_state)) = true
  /\ fst (handle_client ratelimit example_world 100.75 "10.0.0.7" "/srv/www"
            (RequestLine ["POST"; "/index.html"; "HTTP/1.1"]) busy_state)
     = Some too_many_requests.
Proof.
  assert ("POST" <> "GET") as Hpost by discriminate.
  assert (fst (rate_limited 100.75 "10.0.0.7" (rate_limits busy_state)) = true) as Hrefused.
  { vm_compute. reflexivity. }
  split; [exact Hpost|]. split; [exact Hrefused|].
  exact (proj1 (rate_check_before_method_check example_world 100.75 "10.0.0.7" "/srv/www"
                  busy_state) "POST" "/index.html" ["HTTP/1.1"] Hpost Hrefused).
Defined.

(** C3 at a GET for the directory [/docs] in [threadsafe] mode: the entry of
    the directory is inserted with count 1. *)
Lemma counter_incremented_for_directory_and_file_witness :
  let out := handle_client threadsafe example_world 100 "10.0.0.7" "/srv/www"
               (RequestLine ["GET"; "/docs"; "HTTP/1.1"]) fresh_state in
  isdir example_world "/srv/www/docs" = true
  /\ file_hits (snd out) = <[ "/srv/www/docs" := 1%Z ]> ∅.
Proof.
  pose proof (counter_incremented_for_directory_and_file threadsafe example_world 100
                "10.0.0.7" "/srv/www" "/docs" ["HTTP/1.1"] fresh_state
                eq_refl eq_refl) as Hw.
  cbv zeta in Hw.
  assert (within_base example_world "/srv/www"
            (resolve example_world "/srv/www" (unquote example_world "/docs")) = true) as Hin.
  { vm_compute. reflexivity. }
  assert (path_exists example_world
            (resolve example_world "/srv/www" (unquote example_world "/docs")) = true) as Hex.
  { vm_compute. reflexivity. }
  destruct (Hw Hin Hex) as (Hhits & _).
  cbv zeta. split; [vm_compute; reflexivity|]. exact Hhits.
Defined.


(** ** The locked counter never blocks for good *)

Section CounterProgress.
Implicit Types (c : Counter) (t : Thread) (ts : list Thread).

Lemma count_if_pos (f : Thread -> bool) ts :
  (0 < count_if f ts)%nat -> exists l1 t l2, ts = l1 ++ t :: l2 /\ f t = true.
Proof.
  unfold count_if. induction ts as [|t ts IH]; simpl; [lia|].
  destruct (f t) eqn:E.
  - intros _. by exists [], t, ts.
  - intros Hpos. destruct (IH Hpos) as (l1 & t0 & l2 & -> & Ht0).
    by exists (t :: l1), t0, l2.
Qed.

Lemma finished_or_pending ts :
  finished ts \/ exists l1 t l2 a rest, ts = l1 ++ t :: l2 /\ todo t = a :: rest.
Proof.
  induction ts as [|t ts [IH|IH]].
  - left. constructor.
  - destruct (todo t) as [|a rest] eqn:E.
    + left. by constructor.
    + right. by exists [], t, ts, a, rest.
  - right. destruct IH as (l1 & t0 & l2 & a & rest & -> & Ht0).
    by exists (t :: l1), t0, l2, a, rest.
Qed.

Lemma remaining_middle l1 t l2 :
  remaining (l1 ++ t :: l2) = (remaining l1 + length (todo t) + remaining l2)%nat.
Proof. unfold remaining. rewrite map_app, list_sum_app. simpl. lia. Qed.

(** Every step takes one statement off. *)
Lemma step_remaining c ts c' ts' :
  step (c, ts) (c', ts') -> S (remaining ts') = remaining ts.
Proof.
  inversion 1 as [c0 c1 cur' l1 t l2 a rest Htodo Hen Hexec]; subst.
  rewrite !remaining_middle, Htodo. simpl. lia.
Qed.

(** In a state of the locked modes some thread can move unless all are
    done: the holder of the lock if there is one, any thread otherwise. *)
Lemma inv_progress hits0 keys c ts :
  counter_inv hits0 keys (c, ts) -> finished ts \/ exists s', step (c, ts) s'.
Proof.
  intros (_ & Hwp & Hlock & _ & _).
  destruct (locked c) eqn:Hheld.
  - right. destruct (count_if_pos holds_lock ts) as (l1 & t & l2 & -> & Ht); [lia|].
    apply Forall_app in Hwp as [_ Hwp]. apply Forall_cons in Hwp as [Hwpt _].
    destruct (todo t) as [|a rest] eqn:Htodo.
    { unfold holds_lock in Ht. by rewrite Htodo in Ht. }
    destruct (exec a (file_path t) (current_count t) c) as [c' cur'] eqn:Hexec.
    eexists. eapply (step_thread c c' cur' l1 t l2 a rest); [done| |done].
    destruct (well_placed_next t a rest Hwpt Htodo)
      as [[-> ->]|[[-> _]|[[-> _]|[[-> _]|[-> _]]]]]; try done.
    unfold holds_lock in Ht. by rewrite Htodo in Ht.
  - destruct (finished_or_pending ts) as [Hdone|(l1 & t & l2 & a & rest & -> & Htodo)];
      [by left|right].
    apply Forall_app in Hwp as [_ Hwp]. apply Forall_cons in Hwp as [Hwpt _].
    rewrite count_if_middle in Hlock.
    assert (holds_lock t = false) as Ht by (destruct (holds_lock t); [lia|done]).
    destruct (exec a (file_path t) (current_count t) c) as [c' cur'] eqn:Hexec.
    eexists. eapply (step_thread c c' cur' l1 t l2 a rest); [done| |done].
    destruct (well_placed_next t a rest Hwpt Htodo)
      as [[-> ->]|[[-> ->]|[[-> ->]|[[-> ->]|[-> ->]]]]];
      unfold holds_lock in Ht; rewrite Htodo in Ht; simpl in Ht; try discriminate Ht.
    simpl. by rewrite Hheld.
Qed.

Lemma inv_completes hits0 keys : forall n c ts,
  remaining ts = n ->
  counter_inv hits0 keys (c, ts) ->
  exists c' ts', rtc step (c, ts) (c', ts') /\ finished ts'.
Proof.
  induction n as [|n IH]; intros c ts Hn Hinv.
  - destruct (inv_progress hits0 keys c ts Hinv) as [Hdone|[[c' ts'] Hstep]].
    + exists c, ts. split; [apply rtc_refl|done].
    + apply step_remaining in Hstep. lia.
  - destruct (inv_progress hits0 keys c ts Hinv) as [Hdone|[[c1 ts1] Hstep]].
    + exists c, ts. split; [apply rtc_refl|done].
    + pose proof (step_remaining _ _ _ _ Hstep) as Hless.
      destruct (IH c1 ts1) as (c' & ts' & Hrest & Hdone); [lia|by eapply step_inv|].
      exists c', ts'. split; [by eapply rtc_l|done].
Qed.

(** However the handlers of the locked modes have been interleaved so far,
    the run can be continued until every increment has completed, and every
    continuation stops within as many steps as there are statements left. *)
Theorem locked_run_can_complete mode hits0 keys c ts :
  mode = threadsafe \/ mode = ratelimit ->
  rtc step ({| hits := hits0; locked := false |}, spawn mode keys) (c, ts) ->
  (exists c' ts', rtc step (c, ts) (c', ts') /\ finished ts')
  /\ (forall c' ts', step (c, ts) (c', ts') -> S (remaining ts') = remaining ts)
  /\ (finished ts \/ exists s', step (c, ts) s').
Proof.
  intros Hmode Hsteps.
  pose proof (steps_inv hits0 keys _ _ (spawn_inv mode hits0 keys Hmode) Hsteps) as Hinv.
  split; [by eapply inv_completes|].
  split; [apply step_remaining|by eapply inv_progress].
Qed.

End CounterProgress.

(** The run in which the first of two threads has taken the lock and read:
    it can be completed. *)
Lemma locked_run_can_complete_witness :
  let key := "/srv/www/index.html" in
  let c := {| hits := ∅; locked := true |} in
  let ts := [thread_at key 0 [Sleep; WriteCount; Release]; thread_at key 0 locked_path] in
  rtc step ({| hits := ∅; locked := false |}, spawn threadsafe [key; key]) (c, ts)
  /\ exists c' ts', rtc step (c, ts) (c', ts') /\ finished ts'.
Proof.
  cbv zeta.
  assert (rtc step ({| hits := ∅; locked := false |},
                    spawn threadsafe ["/srv/www/index.html"; "/srv/www/index.html"])
                   ({| hits := ∅; locked := true |},
                    [thread_at "/srv/www/index.html" 0 [Sleep; WriteCount; Release];
                     thread_at "/srv/www/index.html" 0 locked_path])) as Hrun.
  { unfold spawn. simpl.
    eapply rtc_l; [eapply (step_thread _ _ _ [] _ [_]); reflexivity|]. simpl.
    eapply rtc_l; [eapply (step_thread _ _ _ [] _ [_]); reflexivity|]. simpl.
    apply rtc_refl. }
  split; [exact Hrun|].
  exact (proj1 (locked_run_can_complete threadsafe ∅ _ _ _ (or_introl eq_refl) Hrun)).
Defined.

(** ** Which modes touch which store *)

(** A mode without counter ([single], [multi]) leaves [file_hits] as it
    was, and every mode but [ratelimit] leaves [rate_limits] as it was,
    whatever the request. *)
Theorem stores_touched_only_by_their_modes mode w now ip base_dir request st :
  let out := handle_client mode w now ip base_dir request st in
  (counts_hits mode = false -> file_hits (snd out) = file_hits st)
  /\ (mode <> ratelimit -> rate_limits (snd out) = rate_limits st).
Proof.
  cbv zeta. destruct request as [|[|method [|target rest]]]; try done.
  rewrite handle_client_request_line. cbv zeta. split.
  - intros Hidle. rewrite (counter_update_idle _ _ _ Hidle).
    by repeat match goal with |- context [if ?b then _ else _] => destruct b end.
  - intros Hmode. rewrite (rate_check_passes _ _ _ _ Hmode). simpl.
    by repeat match goal with |- context [if ?b then _ else _] => destruct b end.
Qed.

(** A GET for an existing file in [multi] mode: both stores are as before. *)
Lemma stores_touched_only_by_their_modes_witness :
  let out := handle_client multi example_world 100.75 "10.0.0.7" "/srv/www"
               (RequestLine ["GET"; "/index.html"; "HTTP/1.1"]) busy_state in
  file_hits (snd out) = file_hits busy_state /\ rate_limits (snd out) = rate_limits busy_state.
Proof.
  pose proof (stores_touched_only_by_their_modes multi example_world 100.75 "10.0.0.7"
                "/srv/www" (RequestLine ["GET"; "/index.html"; "HTTP/1.1"]) busy_state) as Hw.
  cbv zeta in Hw. destruct Hw as [Hhits Hlimits].
  cbv zeta. split; [apply Hhits; reflexivity|apply Hlimits; discriminate].
Defined.

(** ** More on the rate limiter *)

Section LimiterGuarantees.
Implicit Types (now ts : float) (ip : string) (limits : gmap string (list float)).

Lemma filter_sublist (f : float -> bool) (l : list float) : sublist (List.filter f l) l.
Proof.
  induction l as [|x l IH]; simpl; [constructor|].
  destruct (f x); by constructor.
Qed.

Lemma filter_sublist_mono (f : float -> bool) (l1 l2 : list float) :
  sublist l1 l2 -> sublist (List.filter f l1) (List.filter f l2).
Proof.
  induction 1 as [|x l1 l2 _ IH|x l1 l2 _ IH]; simpl; [constructor| |].
  - destruct (f x); [by apply sublist_skip|done].
  - destruct (f x); [by apply sublist_cons|done].
Qed.

(** With [kept] on record, all of it inside the window of every reading to
    come, a burst inside one window gets at most [5 - length kept] requests
    through. *)
Lemma burst_admits_up_to_room ip nows : forall limits older kept,
  default [] (limits !! ip) = older ++ kept ->
  Forall (fun a => Forall (fun t => in_window t a = true) nows) kept ->
  burst_in_window nows ->
  admitted_count (fst (check_all ip nows limits)) <= 5 - length kept.
Proof.
  induction nows as [|now nows IH]; intros limits older kept Hrec Hkept Hwin; simpl.
  - unfold admitted_count. simpl. lia.
  - destruct Hwin as [Hnow Hwin].
    assert (Forall (fun a => in_window now a = true) kept) as Hk1.
    { eapply Forall_impl; [exact Hkept|]. simpl. intros a Ha. by inversion Ha. }
    assert (Forall (fun a => Forall (fun t => in_window t a = true) nows) kept) as Hk2.
    { eapply Forall_impl; [exact Hkept|]. simpl. intros a Ha. by inversion Ha. }
    rewrite rate_limited_eq. cbv zeta. rewrite Hrec, List.filter_app.
    rewrite (filter_all_kept _ _ Hk1).
    set (pruned := List.filter (in_window now) older ++ kept).
    destruct (Nat.leb 5 (length pruned)) eqn:E.
    + specialize (IH (<[ip := pruned]> limits) (List.filter (in_window now) older) kept).
      rewrite lookup_insert_eq in IH. specialize (IH eq_refl Hk2 Hwin).
      destruct (check_all ip nows (<[ip := pruned]> limits)) as [answers limits']. simpl in *.
      unfold admitted_count in *. simpl. done.
    + apply Nat.leb_gt in E. unfold pruned in E. rewrite length_app in E.
      specialize (IH (<[ip := pruned ++ [now]]> limits)
                     (List.filter (in_window now) older) (kept ++ [now])).
      rewrite lookup_insert_eq in IH. unfold pruned in IH. rewrite <- app_assoc in IH.
      specialize (IH eq_refl).
      assert (admitted_count
                (fst (check_all ip nows
                        (<[ip := List.filter (in_window now) older ++ kept ++ [now]]> limits)))
              <= 5 - length (kept ++ [now])) as Hrest.
      { apply IH; [|done]. apply Forall_app. split; [done|]. by constructor. }
      unfold pruned. rewrite <- app_assoc.
      destruct (check_all ip nows _) as [answers limits']. simpl in *.
      rewrite length_app in Hrest. simpl in Hrest.
      unfold admitted_count in *. simpl. lia.
Qed.

(** The guarantee of the limiter: whatever is on record, of the checks of
    one address made inside one window at most five are let through. *)
Theorem limiter_admits_at_most_five_per_window ip nows limits :
  burst_in_window nows ->
  admitted_count (fst (check_all ip nows limits)) <= 5.
Proof.
  intros Hwin.
  pose proof (burst_admits_up_to_room ip nows limits (default [] (limits !! ip)) []) as H.
  rewrite app_nil_r in H. specialize (H eq_refl ltac:(constructor) Hwin). simpl in H. lia.
Qed.

(** Requests that come slowly enough are never refused. *)
Lemma spaced_checks_pass ip nows : forall limits seen,
  sublist (default [] (limits !! ip)) seen ->
  (forall earlier now later,
      nows = earlier ++ now :: later ->
      length (List.filter (in_window now) (seen ++ earlier)) <= 4) ->
  fst (check_all ip nows limits) = replicate (length nows) false.
Proof.
  induction nows as [|now nows IH]; intros limits seen Hsub Hspaced; simpl; [done|].
  pose proof (Hspaced [] now nows eq_refl) as Hfirst. rewrite app_nil_r in Hfirst.
  pose proof (sublist_length _ _ (filter_sublist_mono (in_window now) _ _ Hsub)) as Hle.
  rewrite rate_limited_eq. cbv zeta.
  destruct (Nat.leb 5 _) eqn:E; [apply Nat.leb_le in E; lia|].
  set (limits' := <[ip := _]> limits).
  specialize (IH limits' (seen ++ [now])).
  destruct (check_all ip nows limits') as [answers limits''] eqn:Hrest. simpl in *.
  f_equal. apply IH.
  - unfold limits'. rewrite lookup_insert_eq. simpl.
    apply sublist_app; [|done].
    etrans; [apply filter_sublist|done].
  - intros earlier now' later ->. rewrite <- app_assoc. simpl.
    apply (Hspaced (now :: earlier) now' later). done.
Qed.

(** From an empty record, if every check finds at most four of the earlier
    checks of its address inside its window, every check is let through. *)
Theorem spaced_requests_all_admitted ip nows limits :
  default [] (limits !! ip) = [] ->
  (forall earlier now later,
      nows = earlier ++ now :: later ->
      length (List.filter (in_window now) earlier) <= 4) ->
  fst (check_all ip nows limits) = replicate (length nows) false.
Proof.
  intros Hempty Hspaced. apply (spaced_checks_pass ip nows limits []).
  - rewrite Hempty. constructor.
  - intros earlier now later Heq. simpl. by eapply Hspaced.
Qed.

(** What a check leaves on record: timestamps that were on record and are
    inside the window of the check, in their order, and the reading of the
    check itself, last, exactly when the request was let through.  In a
    state the limiter can reach, no record holds more than five. *)
Theorem limiter_record_after_check now ip limits :
  let before := default [] (limits !! ip) in
  let answer := fst (rate_limited now ip limits) in
  let after := default [] (snd (rate_limited now ip limits) !! ip) in
  after = List.filter (in_window now) before ++ (if answer then [] else [now])
  /\ sublist after (before ++ [now])
  /\ (forall ts, In ts after -> (In ts before /\ in_window now ts = true) \/ ts = now)
  /\ (answer = true <-> 5 <= length (List.filter (in_window now) before))
  /\ (reachable_limits limits -> length after <= 5).
Proof.
  cbv zeta. rewrite rate_limited_eq. cbv zeta.
  set (before := default [] (limits !! ip)).
  set (pruned := List.filter (in_window now) before).
  assert (reachable_limits limits ->
          length (default [] (snd (rate_limited now ip limits) !! ip)) <= 5) as Hfive.
  { intros Hreach. apply rate_limited_at_most_five.
    by apply reachable_at_most_five. }
  rewrite rate_limited_eq in Hfive. cbv zeta in Hfive. fold before pruned in Hfive.
  destruct (Nat.leb 5 (length pruned)) eqn:E; simpl; rewrite lookup_insert_eq; simpl;
    simpl in Hfive; rewrite lookup_insert_eq in Hfive; simpl in Hfive.
  - rewrite app_nil_r. split; [done|]. split.
    { apply sublist_inserts_r. apply filter_sublist. }
    split.
    { intros ts Hin. left. by apply filter_In in Hin. }
    split; [|done]. split; [intros _; by apply Nat.leb_le|done].
  - split; [done|]. split.
    { apply sublist_app; [apply filter_sublist|done]. }
    split.
    { intros ts Hin. apply in_app_or in Hin as [Hin|[<-|[]]]; [left|by right].
      by apply filter_In in Hin. }
    split; [|done]. apply Nat.leb_gt in E. split; [done|lia].
Qed.

End LimiterGuarantees.

(** Six checks inside one window: five are let through. *)
Lemma limiter_admits_at_most_five_per_window_witness :
  burst_in_window [100; 100.125; 100.25; 100.375; 100.5; 100.75]%float
  /\ admitted_count (fst (check_all "10.0.0.7"
                            [100; 100.125; 100.25; 100.375; 100.5; 100.75]%float ∅)) <= 5.
Proof.
  assert (burst_in_window [100; 100.125; 100.25; 100.375; 100.5; 100.75]%float) as Hwin.
  { simpl. repeat (split; [repeat constructor|]). exact I. }
  split; [exact Hwin|].
  exact (limiter_admits_at_most_five_per_window "10.0.0.7" _ ∅ Hwin).
Defined.

(** Ten requests a quarter of a second apart, as [test_slow_requests] sends
    them: a check finds at most the three before it inside its window. *)
Lemma spaced_requests_all_admitted_witness :
  fst (check_all "10.0.0.7"
         [100; 100.25; 100.5; 100.75; 101; 101.25; 101.5; 101.75; 102; 102.25]%float ∅)
  = replicate 10 false.
Proof.
  apply (spaced_requests_all_admitted "10.0.0.7"
           [100; 100.25; 100.5; 100.75; 101; 101.25; 101.5; 101.75; 102; 102.25]%float ∅).
  - reflexivity.
  - intros earlier now later Heq.
    repeat (destruct earlier as [|? earlier];
            [injection Heq as <- <-; vm_compute; lia
            |injection Heq as <- Heq]).
    destruct earlier; discriminate Heq.
Defined.

(** The record of an address over its limit, checked again a quarter of a
    second later. *)
Lemma limiter_record_after_check_witness :
  reachable_limits busy_limits
  /\ default [] (snd (rate_limited 100.75 "10.0.0.7" busy_limits) !! "10.0.0.7")
     = [100; 100.125; 100.25; 100.375; 100.5]%float
  /\ length (default [] (snd (rate_limited 100.75 "10.0.0.7" busy_limits) !! "10.0.0.7")) <= 5.
Proof.
  assert (reachable_limits busy_limits) as Hreach.
  { exists [("10.0.0.7", 100%float); ("10.0.0.7", 100.125%float);
            ("10.0.0.7", 100.25%float); ("10.0.0.7", 100.375%float);
            ("10.0.0.7", 100.5%float)].
    vm_compute. reflexivity. }
  pose proof (limiter_record_after_check 100.75 "10.0.0.7" busy_limits) as Hw.
  cbv zeta in Hw. destruct Hw as (Hafter & _ & _ & _ & Hfive).
  split; [exact Hreach|]. split; [|exact (Hfive Hreach)].
  rewrite Hafter. vm_compute. reflexivity.
Defined.

(** ** More on the connection handlers *)

Section HandlerGuarantees.
Implicit Types (w : World) (mode : Mode) (now : float) (st : State).
Implicit Types (ip base_dir method target : string).

Lemma serve_status_and_type w mode hits_now file_path url_path :
  let r := serve w mode hits_now file_path url_path in
  (status_code r = 200%Z
   /\ (content_type r = "text/html" \/ content_type r = "image/png"
       \/ content_type r = "application/pdf"))
  \/ (status_code r = 404%Z /\ content_type r = "text/html")
  \/ (status_code r = 500%Z /\ content_type r = "text/plain").
Proof.
  unfold serve. cbv zeta. destruct (isdir w file_path); [left; split; [done|by left]|].
  destruct (PyStr.mem (suffix_lower w file_path) supported_extensions) eqn:Hext;
    [|right; left; done].
  simpl. destruct (read_file w file_path); [|right; right; done].
  left. split; [done|]. simpl. unfold get_content_type.
  unfold PyStr.mem, supported_extensions in Hext. simpl in Hext.
  destruct (String.eqb _ ".html"); [by left|].
  destruct (String.eqb _ ".htm"); [by left|].
  destruct (String.eqb _ ".png"); [by right; left|].
  destruct (String.eqb _ ".pdf"); [by right; right|done].
Qed.

(** The statuses the unified server sends are 200, 400, 403, 404, 405, 429
    and 500, and 429 is sent only in [ratelimit] mode to a request that
    [rate_limited] refuses.  A 200 carries [text/html], [image/png] or
    [application/pdf], never the fallback [application/octet-stream] of
    [get_content_type]; every other answer is [text/html] or
    [text/plain]. *)
Theorem unified_statuses_and_types mode w now ip base_dir request st r :
  fst (handle_client mode w now ip base_dir request st) = Some r ->
  (status_code r = 200%Z
   /\ (content_type r = "text/html" \/ content_type r = "image/png"
       \/ content_type r = "application/pdf"))
  \/ (status_code r = 429%Z /\ content_type r = "text/plain"
      /\ mode = ratelimit /\ fst (rate_limited now ip (rate_limits st)) = true)
  \/ ((status_code r = 400%Z \/ status_code r = 405%Z \/ status_code r = 500%Z)
      /\ content_type r = "text/plain")
  \/ ((status_code r = 403%Z \/ status_code r = 404%Z) /\ content_type r = "text/html").
Proof.
  intros Hout. destruct request as [|[|method [|target rest]]];
    [ done
    | simpl in Hout; injection Hout as <-; right; right; left; split; [by left|done]
    | simpl in Hout; injection Hout as <-; right; right; left; split; [by left|done]
    | ].
  rewrite handle_client_request_line in Hout. cbv zeta in Hout.
  destruct (fst (rate_check mode now ip (rate_limits st))) eqn:Hcheck.
  { injection Hout as <-. right; left. split; [done|]. split; [done|].
    destruct mode; try discriminate Hcheck. by split. }
  destruct (negb (String.eqb method "GET")).
  { injection Hout as <-. right; right; left. split; [by right; left|done]. }
  destruct (negb (within_base _ _ _)).
  { injection Hout as <-. right; right; right. split; [by left|done]. }
  destruct (negb (path_exists _ _)).
  { injection Hout as <-. right; right; right. split; [by right|done]. }
  injection Hout as <-.
  match goal with |- context [serve ?a ?b ?c ?d ?e] =>
    destruct (serve_status_and_type a b c d e) as [H|[[H1 H2]|[H1 H2]]] end.
  - by left.
  - right; right; right. split; [by right|done].
  - right; right; left. split; [by right; right|done].
Qed.

(** In [ratelimit] mode a request without data or with a request line of
    fewer than two words is answered (or dropped) before the rate check: it
    is not counted against its address and is never answered 429, even from
    an address over its limit.  Every other request is counted by
    [rate_limited] whatever becomes of it afterwards. *)
Theorem limiter_counts_well_formed_requests_only w now ip base_dir st :
  (handle_client ratelimit w now ip base_dir NoData st = (None, st))
  /\ (forall request_line,
        length request_line < 2 ->
        handle_client ratelimit w now ip base_dir (RequestLine request_line) st
        = (Some bad_request, st))
  /\ (forall method target rest,
        rate_limits (snd (handle_client ratelimit w now ip base_dir
                            (RequestLine (method :: target :: rest)) st))
        = snd (rate_limited now ip (rate_limits st)))
  /\ (forall method target rest,
        fst (rate_limited now ip (rate_limits st)) = false ->
        default [] (rate_limits (snd (handle_client ratelimit w now ip base_dir
                                        (RequestLine (method :: target :: rest)) st)) !! ip)
        = List.filter (in_window now) (default [] (rate_limits st !! ip)) ++ [now]).
Proof.
  split; [done|]. split; [by intros; apply handle_client_short_line|].
  assert (forall method target rest,
            rate_limits (snd (handle_client ratelimit w now ip base_dir
                                (RequestLine (method :: target :: rest)) st))
            = snd (rate_limited now ip (rate_limits st))) as Hlimits.
  { intros method target rest. rewrite handle_client_request_line. cbv zeta.
    change (rate_check ratelimit now ip (rate_limits st))
      with (rate_limited now ip (rate_limits st)).
    by repeat match goal with |- context [if ?b then _ else _] => destruct b end. }
  split; [exact Hlimits|].
  intros method target rest Hok. rewrite Hlimits.
  rewrite rate_limited_eq in Hok |- *. cbv zeta in Hok |- *.
  destruct (Nat.leb 5 _); [done|]. simpl. by rewrite lookup_insert_eq.
Qed.

Lemma serve_in_order_app mode w base_dir accepted1 accepted2 st :
  serve_in_order mode w base_dir (accepted1 ++ accepted2) st
  = (fst (serve_in_order mode w base_dir accepted1 st)
       ++ fst (serve_in_order mode w base_dir accepted2
                 (snd (serve_in_order mode w base_dir accepted1 st))),
     snd (serve_in_order mode w base_dir accepted2
            (snd (serve_in_order mode w base_dir accepted1 st)))).
Proof.
  revert st. induction accepted1 as [|conn accepted1 IH]; intros st; simpl.
  - by destruct (serve_in_order mode w base_dir accepted2 st).
  - destruct (handle_client _ _ _ _ _ _ _) as [response st1].
    rewrite (IH st1). destruct (serve_in_order mode w base_dir accepted1 st1) as [rs st2].
    simpl. by destruct (serve_in_order mode w base_dir accepted2 st2).
Qed.

Lemma handle_client_limits_untouched mode w now ip base_dir request st :
  mode <> ratelimit ->
  rate_limits (snd (handle_client mode w now ip base_dir request st)) = rate_limits st.
Proof.
  intros Hmode. destruct request as [|[|method [|target rest]]]; try done.
  rewrite handle_client_request_line. cbv zeta.
  rewrite (rate_check_passes _ _ _ _ Hmode). simpl.
  by repeat match goal with |- context [if ?b then _ else _] => destruct b end.
Qed.

(** What one request does to the counter in [race] and [threadsafe] mode. *)
Lemma handle_client_counts mode w now ip base_dir request st :
  mode = race \/ mode = threadsafe ->
  file_hits (snd (handle_client mode w now ip base_dir request st))
  = match counted_key w base_dir request with
    | Some key => <[key := (default 0 (file_hits st !! key) + 1)%Z]> (file_hits st)
    | None => file_hits st
    end.
Proof.
  intros Hmode.
  assert (counts_hits mode = true) as Hcounts by (by destruct Hmode as [-> | ->]).
  assert (mode <> ratelimit) as Hnot by (by destruct Hmode as [-> | ->]).
  destruct request as [|[|method [|target rest]]]; try done.
  rewrite handle_client_request_line. cbv zeta.
  rewrite (rate_check_passes _ _ _ _ Hnot). unfold counted_key. simpl.
  destruct (String.eqb method "GET"); simpl; [|done].
  destruct (within_base _ _ _); simpl; [|done].
  destruct (path_exists _ _); simpl; [|done].
  by rewrite (counter_update_counts _ _ _ Hcounts).
Qed.

(** Connections served one after the other in [race] or [threadsafe] mode:
    the count of every path ends at its initial value plus the number of
    requests that reached the counter block for that path, whatever else
    was requested in between, and the limiter map is untouched. *)
Theorem counts_after_serving_in_order mode w base_dir accepted st key :
  mode = race \/ mode = threadsafe ->
  let st' := snd (serve_in_order mode w base_dir accepted st) in
  default 0%Z (file_hits st' !! key)
  = (default 0%Z (file_hits st !! key) + Z.of_nat (counted_for w base_dir key accepted))%Z
  /\ rate_limits st' = rate_limits st
  /\ length (fst (serve_in_order mode w base_dir accepted st)) = length accepted.
Proof.
  intros Hmode. cbv zeta. revert st.
  induction accepted as [|conn accepted IH]; intros st; simpl.
  - unfold counted_for. simpl. split; [lia|done].
  - pose proof (handle_client_counts mode w (arrival conn) (client_ip conn) base_dir
                  (received conn) st Hmode) as Hone.
    pose proof (handle_client_limits_untouched mode w (arrival conn)
                  (client_ip conn) base_dir (received conn) st) as Hlim.
    destruct (handle_client _ _ _ _ _ _ _) as [response st1]. simpl in Hone, Hlim.
    destruct (IH st1) as (Hcount & Hlimits & Hlen).
    destruct (serve_in_order mode w base_dir accepted st1) as [responses st2].
    simpl in *. rewrite Hcount, Hlimits, Hone, Hlen.
    split; [|split; [|done]].
    + unfold counted_for. simpl.
      destruct (counted_key w base_dir (received conn)) as [k|]; [|simpl; lia].
      destruct (String.eqb k key) eqn:Ek.
      * apply String.eqb_eq in Ek as ->. rewrite lookup_insert_eq. simpl. lia.
      * apply String.eqb_neq in Ek. rewrite lookup_insert_ne by done. lia.
    + apply Hlim. by destruct Hmode as [-> | ->].
Qed.

End HandlerGuarantees.

Section ServerVariants.
Implicit Types (w : World) (mode : Mode) (now : float) (st : State).
Implicit Types (ip base_dir : string) (request : Received).

(** The servers answer alike.  The unified server answers every request the
    same in [single] and in [multi] mode.  In every mode, a request that
    the rate check lets through gets the status and content type that the
    multithreaded server of Lab 2 gives it; counting hits changes neither.
    The Lab 1 server gives every request the same status as the
    multithreaded server, except for the path ["/"], which it serves from
    [index.html]. *)
Theorem server_variants_agree w base_dir request :
  (forall now ip st,
      handle_client single w now ip base_dir request st
      = handle_client multi w now ip base_dir request st)
  /\ (forall mode now ip st,
        fst (rate_check mode now ip (rate_limits st)) = false ->
        status_and_type <$> fst (handle_client mode w now ip base_dir request st)
        = status_and_type <$> Lab2_server_multithreaded.handle_client w base_dir request)
  /\ ((forall method target rest,
          request = RequestLine (method :: target :: rest) -> unquote w target <> "/") ->
      status_code <$> Lab1_server.handle_request w base_dir (Ok request)
      = status_code <$> Lab2_server_multithreaded.handle_client w base_dir request).
Proof.
  split; [|split].
  - intros now ip st. destruct request as [|[|method [|target rest]]]; reflexivity.
  - intros mode now ip st Hcheck.
    destruct request as [|[|method [|target rest]]]; try reflexivity.
    rewrite handle_client_request_line. cbv zeta. rewrite Hcheck.
    unfold Lab2_server_multithreaded.handle_client, resolve, within_base, serve.
    cbv zeta.
    destruct (negb (String.eqb method "GET")); [reflexivity|].
    destruct (negb (PyStr.startswith _ _)); [reflexivity|].
    destruct (negb (path_exists _ _)); [reflexivity|].
    cbn [fst snd file_hits].
    destruct (isdir w _); [reflexivity|].
    destruct (negb (PyStr.mem _ _)); [reflexivity|].
    destruct (read_file w _); reflexivity.
  - intros Hroot.
    destruct request as [|[|method [|target rest]]]; try reflexivity.
    specialize (Hroot method target rest eq_refl). apply String.eqb_neq in Hroot.
    unfold Lab1_server.handle_request, Lab2_server_multithreaded.handle_client,
      Lab1_server.serve_path.
    cbv zeta. rewrite Hroot.
    destruct (negb (String.eqb method "GET")); [reflexivity|].
    destruct (negb (PyStr.startswith _ _)); [reflexivity|].
    destruct (negb (path_exists _ _)); [reflexivity|].
    destruct (isdir _ _); [reflexivity|].
    destruct (negb (PyStr.mem _ _)); [reflexivity|].
    destruct (read_file _ _); reflexivity.
Qed.

(** The Lab 1 server and the multithreaded server send 200, 400, 403, 404,
    405 and 500 and nothing else, and the Lab 1 server answers 500 when the
    request is not valid UTF-8. *)
Theorem lab_servers_statuses w base_dir :
  (forall request r,
      Lab2_server_multithreaded.handle_client w base_dir request = Some r ->
      In (status_code r) [200; 400; 403; 404; 405; 500]%Z)
  /\ (forall (data : Result Received) r,
        Lab1_server.handle_request w base_dir data = Some r ->
        In (status_code r) [200; 400; 403; 404; 405; 500]%Z)
  /\ (forall e, Lab1_server.handle_request w base_dir (Raise e)
                = Some (Lab1_server.internal_error e)).
Proof.
  split; [|split; [|done]].
  - intros request r Hout.
    destruct request as [|[|method [|target rest]]]; simpl in Hout;
      try discriminate Hout; try (injection Hout as <-; simpl; tauto).
    repeat match type of Hout with
           | context [if ?b then _ else _] => destruct b
           | context [match ?x with Ok _ => _ | Raise _ => _ end] => destruct x
           end; injection Hout as <-; simpl; tauto.
  - intros data r Hout.
    destruct data as [[|[|method [|target rest]]]|e]; simpl in Hout;
      try discriminate Hout; try (injection Hout as <-; simpl; tauto).
    unfold Lab1_server.serve_path in Hout.
    repeat match type of Hout with
           | context [if ?b then _ else _] => destruct b
           | context [match ?x with Ok _ => _ | Raise _ => _ end] => destruct x
           end; injection Hout as <-; simpl; tauto.
Qed.

End ServerVariants.

(** A GET for a file that cannot be read, in [threadsafe] mode: 500 and
    [text/plain]. *)
Lemma unified_statuses_and_types_witness :
  exists r,
    fst (handle_client threadsafe example_world 100 "10.0.0.7" "/srv/www"
           (RequestLine ["GET"; "/locked.png"; "HTTP/1.1"]) fresh_state) = Some r
    /\ status_code r = 500%Z /\ content_type r = "text/plain".
Proof.
  eexists. split; [vm_compute; reflexivity|].
  match goal with |- status_code ?r = _ /\ _ =>
    destruct (unified_statuses_and_types threadsafe example_world 100 "10.0.0.7" "/srv/www"
                (RequestLine ["GET"; "/locked.png"; "HTTP/1.1"]) fresh_state r
                ltac:(vm_compute; reflexivity))
      as [[H _]|[[H _]|[[_ H]|[[H|H] _]]]]
  end; try (vm_compute in H; discriminate H).
  split; [reflexivity|exact H].
Defined.

(** An address over its limit: a one word request line is answered 400 and
    leaves the limiter as it was; a refused GET leaves the pruned record. *)
Lemma limiter_counts_well_formed_requests_only_witness :
  handle_client ratelimit example_world 100.75 "10.0.0.7" "/srv/www"
    (RequestLine ["GET"]) busy_state = (Some bad_request, busy_state)
  /\ default [] (rate_limits (snd (handle_client ratelimit example_world 100.75 "10.0.0.8"
                                     "/srv/www" (RequestLine ["POST"; "/"; "HTTP/1.1"])
                                     busy_state)) !! "10.0.0.8")
     = [100.75%float].
Proof.
  destruct (limiter_counts_well_formed_requests_only example_world 100.75 "10.0.0.7"
              "/srv/www" busy_state) as (_ & Hshort & _).
  destruct (limiter_counts_well_formed_requests_only example_world 100.75 "10.0.0.8"
              "/srv/www" busy_state) as (_ & _ & _ & Hrecorded).
  split.
  - apply Hshort. simpl. lia.
  - rewrite Hrecorded; [reflexivity|]. vm_compute. reflexivity.
Defined.

(** Three connections in [threadsafe] mode, two of them GETs for the same
    file with a refused method in between: the count of the file is 2. *)
Lemma counts_after_serving_in_order_witness :
  let get := {| arrival := 100; client_ip := "10.0.0.7";
                received := RequestLine ["GET"; "/docs/a.pdf"; "HTTP/1.1"] |} in
  let post := {| arrival := 100; client_ip := "10.0.0.8";
                 received := RequestLine ["POST"; "/docs/a.pdf"; "HTTP/1.1"] |} in
  default 0%Z (file_hits (snd (serve_in_order threadsafe example_world "/srv/www"
                                 [get; post; get] fresh_state)) !! "/srv/www/docs/a.pdf")
  = 2%Z.
Proof.
  cbv zeta.
  match goal with |- default _ (file_hits (snd (serve_in_order _ _ _ ?conns _)) !! _) = _ =>
    rewrite (proj1 (counts_after_serving_in_order threadsafe example_world "/srv/www"
                      conns fresh_state "/srv/www/docs/a.pdf" (or_intror eq_refl)))
  end.
  vm_compute. reflexivity.
Defined.

(** A GET for a directory below the root: the Lab 1 server and the
    multithreaded server both answer 200. *)
Lemma server_variants_agree_witness :
  status_code <$> Lab1_server.handle_request example_world "/srv/www"
                    (Ok (RequestLine ["GET"; "/docs"; "HTTP/1.1"]))
  = status_code <$> Lab2_server_multithreaded.handle_client example_world "/srv/www"
                      (RequestLine ["GET"; "/docs"; "HTTP/1.1"]).
Proof.
  apply (proj2 (proj2 (server_variants_agree example_world "/srv/www"
                         (RequestLine ["GET"; "/docs"; "HTTP/1.1"])))).
  intros method target rest [= <- <- <-]. vm_compute. discriminate.
Defined.

(** A POST to the Lab 1 server: 405, one of the six statuses. *)
Lemma lab_servers_statuses_witness :
  In 405%Z [200; 400; 403; 404; 405; 500]%Z.
Proof.
  exact (proj1 (proj2 (lab_servers_statuses example_world "/srv/www"))
           (Ok (RequestLine ["POST"; "/"; "HTTP/1.1"])) Lab1_server.method_not_allowed
           eq_refl).
Defined.

(** ** The client reading what the servers send *)

Section ClientParsing.
Import PyStr Lab1_client.
Implicit Types (s p rest body : string) (lines : list string).
Local Arguments String.append !_ _ / : simpl nomatch.

Lemma append_assoc s1 s2 s3 : (s1 +:+ s2) +:+ s3 = s1 +:+ (s2 +:+ s3).
Proof. induction s1 as [|c s1 IH]; simpl; [done|]. by f_equal. Qed.

Lemma append_nil_r s : s +:+ "" = s.
Proof. induction s as [|c s IH]; simpl; [done|]. by f_equal. Qed.

Lemma length_append s1 s2 :
  String.length (s1 +:+ s2) = (String.length s1 + String.length s2)%nat.
Proof. induction s1 as [|c s1 IH]; simpl; [done|]. by f_equal. Qed.

Lemma all_chars_app f s1 s2 :
  all_chars f (s1 +:+ s2) = all_chars f s1 && all_chars f s2.
Proof. induction s1 as [|c s1 IH]; simpl; [done|]. by rewrite IH, andb_assoc. Qed.

Lemma all_chars_impl (f g : ascii -> bool) s :
  (forall c, f c = true -> g c = true) -> all_chars f s = true -> all_chars g s = true.
Proof.
  intros Himpl. induction s as [|c s IH]; simpl; [done|].
  intros [Hc Hs]%andb_true_iff. by rewrite (Himpl c Hc), IH.
Qed.

Lemma take_app s rest : take (String.length s) (s +:+ rest) = s.
Proof. induction s as [|c s IH]; simpl; [by destruct rest|]. by f_equal. Qed.

Lemma drop_app s rest : drop (String.length s) (s +:+ rest) = rest.
Proof. induction s as [|c s IH]; simpl; [by destruct rest|done]. Qed.

Lemma take_drop n s : take n s +:+ drop n s = s.
Proof.
  revert s. induction n as [|n IH]; intros [|c s]; simpl; try done. by f_equal.
Qed.

Lemma blank_line_not_here c s :
  not_cr c = true -> startswith (String c s) (crlf +:+ crlf) = false.
Proof.
  unfold not_cr. intros Hc%negb_true_iff.
  change (crlf +:+ crlf) with (String (ascii_of_nat 13) (String (ascii_of_nat 10) crlf)).
  cbn [startswith]. by rewrite Ascii.eqb_sym, Hc.
Qed.

Lemma find_blank_line_cons c s :
  find_blank_line (String c s)
  = if startswith (String c s) (crlf +:+ crlf) then Some 0%nat
    else S <$> find_blank_line s.
Proof. reflexivity. Qed.

Lemma find_blank_line_skip s rest :
  all_chars not_cr s = true ->
  find_blank_line (s +:+ rest) = (fun n => (String.length s + n)%nat) <$> find_blank_line rest.
Proof.
  induction s as [|c s IH].
  - intros _. simpl. by destruct (find_blank_line rest).
  - intros [Hc Hs]%andb_true_iff.
    change (String c s +:+ rest) with (String c (s +:+ rest)).
    rewrite find_blank_line_cons, (blank_line_not_here c _ Hc), (IH Hs).
    by destruct (find_blank_line rest).
Qed.

Lemma find_blank_line_here body : find_blank_line (crlf +:+ crlf +:+ body) = Some 0%nat.
Proof. by destruct body. Qed.

Lemma find_blank_line_next_line c s rest :
  not_cr c = true ->
  find_blank_line (crlf +:+ String c s +:+ rest)
  = (fun n => (2 + n)%nat) <$> find_blank_line (String c s +:+ rest).
Proof.
  intros Hc.
  change (crlf +:+ String c s +:+ rest)
    with (String (ascii_of_nat 13) (String (ascii_of_nat 10) (String c (s +:+ rest)))).
  change (String c s +:+ rest) with (String c (s +:+ rest)).
  rewrite find_blank_line_cons.
  assert (startswith (String (ascii_of_nat 13) (String (ascii_of_nat 10) (String c (s +:+ rest))))
            (crlf +:+ crlf) = false) as ->.
  { change (crlf +:+ crlf)
      with (String (ascii_of_nat 13) (String (ascii_of_nat 10)
              (String (ascii_of_nat 13) (String (ascii_of_nat 10) "")))).
    cbn [startswith]. rewrite !Ascii.eqb_refl.
    unfold not_cr in Hc. apply negb_true_iff in Hc. by rewrite Ascii.eqb_sym, Hc. }
  rewrite find_blank_line_cons.
  assert (startswith (String (ascii_of_nat 10) (String c (s +:+ rest))) (crlf +:+ crlf) = false)
    as -> by reflexivity.
  by destruct (find_blank_line _).
Qed.

(** The first blank line of a header block followed by a blank line is the
    one that follows it. *)
Lemma find_blank_line_block lines body :
  lines <> [] -> Forall header_line lines ->
  find_blank_line (join crlf lines +:+ crlf +:+ crlf +:+ body)
  = Some (String.length (join crlf lines)).
Proof.
  induction lines as [|l lines IH]; [done|]. intros _ Hlines.
  apply Forall_cons in Hlines as [(Hne & _ & Hcr) Hlines].
  destruct lines as [|l' lines].
  - change (join crlf [l]) with l.
    rewrite find_blank_line_skip by done. rewrite find_blank_line_here.
    simpl. f_equal. lia.
  - change (join crlf (l :: l' :: lines)) with (l +:+ crlf +:+ join crlf (l' :: lines)).
    rewrite !append_assoc. rewrite find_blank_line_skip by done.
    pose proof (Forall_inv Hlines) as (Hne' & _ & Hcr').
    assert (exists c s, join crlf (l' :: lines) = String c s /\ not_cr c = true)
      as (c & s & Hjoin & Hc).
    { destruct l' as [|c s]; [done|]. simpl in Hcr'. apply andb_true_iff in Hcr' as [Hc _].
      destruct lines; simpl; eauto. }
    specialize (IH ltac:(done) Hlines). rewrite Hjoin in IH |- *.
    change (crlf +:+ String c s +:+ crlf +:+ crlf +:+ body)
      with (crlf +:+ String c s +:+ (crlf +:+ crlf +:+ body)).
    rewrite find_blank_line_next_line by done. rewrite IH. simpl.
    f_equal. rewrite !length_append. simpl. lia.
Qed.

Lemma split_crlf_two c d t :
  split_crlf (String c (String d t))
  = if Ascii.eqb c (ascii_of_nat 13) && Ascii.eqb d (ascii_of_nat 10)
    then EmptyString :: split_crlf t
    else prepend c (split_crlf (String d t)).
Proof. reflexivity. Qed.

Lemma split_crlf_line l :
  all_chars not_cr l = true -> split_crlf l = [l].
Proof.
  induction l as [|c l IH]; [done|]. intros [Hc Hl]%andb_true_iff.
  destruct l as [|d l]; [done|].
  unfold not_cr in Hc. apply negb_true_iff in Hc.
  rewrite split_crlf_two, Hc, (IH Hl). reflexivity.
Qed.

Lemma split_crlf_cons l rest :
  all_chars not_cr l = true ->
  split_crlf (l +:+ crlf +:+ rest) = l :: split_crlf rest.
Proof.
  induction l as [|c l IH]; [done|]. intros [Hc Hl]%andb_true_iff.
  specialize (IH Hl).
  unfold not_cr in Hc. apply negb_true_iff in Hc.
  change (String c l +:+ crlf +:+ rest) with (String c (l +:+ crlf +:+ rest)).
  destruct (l +:+ crlf +:+ rest) as [|d t] eqn:E.
  { destruct l; discriminate E. }
  rewrite split_crlf_two, Hc, IH. reflexivity.
Qed.

Lemma split_crlf_block lines :
  lines <> [] -> Forall header_line lines -> split_crlf (join crlf lines) = lines.
Proof.
  induction lines as [|l lines IH]; [done|]. intros _ Hlines.
  apply Forall_cons in Hlines as [(_ & _ & Hcr) Hlines].
  destruct lines as [|l' lines].
  - simpl. by apply split_crlf_line.
  - change (join crlf (l :: l' :: lines)) with (l +:+ crlf +:+ join crlf (l' :: lines)).
    rewrite split_crlf_cons by done. by rewrite IH.
Qed.

Lemma ascii_block lines :
  Forall header_line lines -> all_chars is_ascii (join crlf lines) = true.
Proof.
  induction 1 as [|l lines (_ & Hl & _) _ IH]; [done|].
  destruct lines as [|l' lines]; [done|].
  change (join crlf (l :: l' :: lines)) with (l +:+ crlf +:+ join crlf (l' :: lines)).
  by rewrite !all_chars_app, Hl, IH.
Qed.

(** What [parse_http_response] makes of header lines, a blank line and a
    body: the body is returned as it is, whatever bytes it holds. *)
Lemma parse_block lines body :
  lines <> [] -> Forall header_line lines ->
  parse_http_response (join crlf lines +:+ crlf +:+ crlf +:+ body)
  = match split_char_max " " 2 (hd "" lines) with
    | _ :: code :: _ =>
        if (4300 <? String.length code)%nat then NotModelled
        else match py_int code with
             | None => NoResponse
             | Some status_code =>
                 ParsedResponse status_code (fold_left add_header (tl lines) ∅) body
             end
    | _ => NoResponse
    end.
Proof.
  intros Hne Hlines. unfold parse_http_response.
  rewrite (find_blank_line_block lines body Hne Hlines). cbv zeta.
  rewrite take_app, (ascii_block lines Hlines). cbn [negb].
  rewrite (split_crlf_block lines Hne Hlines).
  replace (drop (String.length (join crlf lines) + 4)
             (join crlf lines +:+ crlf +:+ crlf +:+ body)) with body; [done|].
  rewrite <- (drop_app (join crlf lines +:+ crlf +:+ crlf) body) at 1.
  rewrite !append_assoc. f_equal. rewrite !length_append. simpl. lia.
Qed.

End ClientParsing.

Section ClientRoundTrip.
Import PyStr Lab1_client.
Implicit Types (s rest body : string) (r : Response).
Local Arguments String.append !_ _ / : simpl nomatch.

Lemma pretty_N_go_digits x : forall s,
  all_chars is_digit s = true -> all_chars is_digit (pretty_N_go x s) = true.
Proof.
  induction (N.lt_wf_0 x) as [x _ IH]; intros s Hs.
  assert (x = 0 \/ 0 < x)%N as [->|Hpos] by lia; [by rewrite pretty_N_go_0|].
  rewrite pretty_N_go_step by done. apply IH; [by apply N.div_lt|].
  simpl. rewrite Hs, andb_true_r.
  unfold pretty_N_char. repeat case_match; reflexivity.
Qed.

Lemma pretty_N_go_nonempty x : forall s, s <> "" -> pretty_N_go x s <> "".
Proof.
  induction (N.lt_wf_0 x) as [x _ IH]; intros s Hs.
  assert (x = 0 \/ 0 < x)%N as [->|Hpos] by lia; [by rewrite pretty_N_go_0|].
  rewrite pretty_N_go_step by done. apply IH; [by apply N.div_lt|done].
Qed.

(** The decimal text of a length: digits, and at least one. *)
Lemma pretty_nat_digits (n : nat) :
  all_chars is_digit (pretty n) = true /\ pretty n <> "".
Proof.
  unfold pretty, pretty_nat, pretty, pretty_N. case_decide as Hz; [done|].
  split; [by apply pretty_N_go_digits|].
  assert (0 < N.of_nat n)%N as Hpos by lia.
  rewrite pretty_N_go_step by done. by apply pretty_N_go_nonempty.
Qed.

Lemma digit_facts c :
  is_digit c = true -> is_ascii c = true /\ not_cr c = true /\ is_space c = false.
Proof.
  destruct c as [[] [] [] [] [] [] [] []]; vm_compute; intros; try discriminate; done.
Qed.

Lemma strip_unspaced s :
  all_chars (fun c => negb (is_space c)) s = true -> strip s = s.
Proof.
  intros Hs. unfold strip.
  assert (lstrip s = s) as ->.
  { destruct s as [|c s]; [done|]. simpl in Hs |- *.
    apply andb_true_iff in Hs as [Hc%negb_true_iff _]. by rewrite Hc. }
  induction s as [|c s IH]; [done|]. simpl in Hs |- *.
  apply andb_true_iff in Hs as [Hc%negb_true_iff Hs]. rewrite (IH Hs), Hc.
  by destruct s.
Qed.

Lemma send_response_lines with_429 r :
  send_response with_429 r
  = join crlf (header_lines with_429 r) +:+ crlf +:+ crlf +:+ body r.
Proof.
  unfold send_response, header_lines. cbn [join].
  by rewrite !append_assoc.
Qed.

Lemma header_lines_well_formed with_429 r :
  In (status_code r) sent_statuses -> In (content_type r) sent_types ->
  Forall header_line (header_lines with_429 r).
Proof.
  intros Hcode Htype. destruct r as [code ctype payload]. simpl in Hcode, Htype.
  destruct (pretty_nat_digits (String.length payload)) as [Hdigits Hne].
  unfold header_lines. cbn [status_code content_type body].
  assert (forall c, is_digit c = true -> is_ascii c = true) as Hascii
    by (intros c Hc; by apply digit_facts).
  assert (forall c, is_digit c = true -> not_cr c = true) as Hcr
    by (intros c Hc; by apply digit_facts).
  apply Forall_cons. split; [|apply Forall_cons; split;
    [|apply Forall_cons; split; [|apply Forall_cons; split; [|constructor]]]].
  - destruct with_429, Hcode as [<-|[<-|[<-|[<-|[<-|[<-|[<-|[]]]]]]]];
      (split; [done|split; reflexivity]).
  - destruct Htype as [<-|[<-|[<-|[<-|[<-|[]]]]]]; (split; [done|split; reflexivity]).
  - split; [done|]. rewrite !all_chars_app.
    rewrite (all_chars_impl _ _ _ Hascii Hdigits), (all_chars_impl _ _ _ Hcr Hdigits).
    split; reflexivity.
  - split; [done|split; reflexivity].
Qed.

Lemma status_line_read with_429 code :
  In code sent_statuses ->
  split_char_max " " 2 ("HTTP/1.1 " +:+ pretty code +:+ " " +:+ status_message with_429 code)
  = ["HTTP/1.1"; pretty code; status_message with_429 code]
  /\ (4300 <? String.length (pretty code))%nat = false
  /\ py_int (pretty code) = Some code.
Proof.
  intros Hcode.
  destruct with_429, Hcode as [<-|[<-|[<-|[<-|[<-|[<-|[<-|[]]]]]]]];
    vm_compute; done.
Qed.

Lemma contains_char_app sep s1 s2 :
  contains_char sep (s1 +:+ s2) = contains_char sep s1 || contains_char sep s2.
Proof.
  induction s1 as [|c s1 IH]; [done|].
  change (String c s1 +:+ s2) with (String c (s1 +:+ s2)).
  cbn [contains_char]. by rewrite IH, orb_assoc.
Qed.

Lemma split_char_max_first sep m name rest :
  all_chars (fun c => negb (Ascii.eqb c sep)) name = true ->
  split_char_max sep (S m) (name +:+ String sep rest) = name :: split_char_max sep m rest.
Proof.
  induction name as [|c name IH]; intros Hname.
  - change ("" +:+ String sep rest) with (String sep rest).
    cbn [split_char_max]. by rewrite Ascii.eqb_refl.
  - change (String c name +:+ String sep rest) with (String c (name +:+ String sep rest)).
    cbn [all_chars] in Hname. apply andb_true_iff in Hname as [Hc%negb_true_iff Hname].
    cbn [split_char_max]. by rewrite Hc, (IH Hname).
Qed.

Lemma add_header_field (headers : gmap string string) name key value :
  all_chars (fun c => negb (Ascii.eqb c ":")) name = true ->
  lower (strip name) = key ->
  add_header headers (name +:+ ": " +:+ value) = <[key := strip value]> headers.
Proof.
  intros Hname <-. unfold add_header.
  rewrite contains_char_app.
  change (contains_char ":" (": " +:+ value)) with true. rewrite orb_true_r.
  change (": " +:+ value) with (String ":" (String " " value)).
  rewrite (split_char_max_first ":" 0 name _ Hname).
  reflexivity.
Qed.

End ClientRoundTrip.


Section ClientClaims.
Import PyStr Lab1_client.
Implicit Types (s rest body : string) (r : Response).
Local Arguments String.append !_ _ / : simpl nomatch.

Lemma sent_type_plain ctype :
  In ctype sent_types -> strip ctype = ctype /\ before_char ";" ctype = ctype.
Proof. intros [<-|[<-|[<-|[<-|[<-|[]]]]]]; split; reflexivity. Qed.

Lemma parse_send_response with_429 r :
  In (status_code r) sent_statuses -> In (content_type r) sent_types ->
  parse_http_response (send_response with_429 r)
  = ParsedResponse (status_code r) (headers_of r) (body r).
Proof.
  intros Hcode Htype.
  rewrite send_response_lines, parse_block;
    [|done|by apply header_lines_well_formed].
  unfold header_lines. cbn [hd tl].
  destruct (status_line_read with_429 _ Hcode) as (-> & -> & ->).
  cbn [fold_left].
  change ("Content-Type: " +:+ content_type r)
    with ("Content-Type" +:+ ": " +:+ content_type r).
  change ("Content-Length: " +:+ pretty (String.length (body r)))
    with ("Content-Length" +:+ ": " +:+ pretty (String.length (body r))).
  change "Connection: close" with ("Connection" +:+ ": " +:+ "close").
  rewrite (add_header_field ∅ "Content-Type" "content-type") by reflexivity.
  rewrite (add_header_field _ "Content-Length" "content-length") by reflexivity.
  rewrite (add_header_field _ "Connection" "connection") by reflexivity.
  rewrite (proj1 (sent_type_plain _ Htype)).
  rewrite (strip_unspaced (pretty (String.length (body r)))).
  - reflexivity.
  - eapply all_chars_impl; [|apply pretty_nat_digits].
    intros c Hc. apply negb_true_iff. by apply digit_facts.
Qed.

Lemma content_type_of_headers r :
  In (content_type r) sent_types -> get_content_type (headers_of r) = content_type r.
Proof.
  intros Htype. unfold get_content_type, headers_of.
  rewrite lookup_insert_ne by done. rewrite lookup_insert_ne by done.
  rewrite lookup_insert_eq. simpl.
  destruct (sent_type_plain _ Htype) as [Hstrip Hbefore]. by rewrite Hbefore.
Qed.

(** The client reads back what the servers send.  For every response with
    one of the statuses and content types of the servers, and any bytes as
    body, [parse_http_response] of the bytes written by [send_response]
    returns the status, the three headers under lowered names with
    [Content-Length] the length of the body, and the body byte for byte,
    blank lines in it included; [get_content_type] returns the content
    type. *)
Theorem client_reads_what_servers_send with_429 r :
  In (status_code r) sent_statuses -> In (content_type r) sent_types ->
  parse_http_response (send_response with_429 r)
  = ParsedResponse (status_code r) (headers_of r) (body r)
  /\ headers_of r !! "content-length" = Some (pretty (String.length (body r)))
  /\ get_content_type (headers_of r) = content_type r.
Proof.
  intros Hcode Htype. split; [by apply parse_send_response|].
  split; [|by apply content_type_of_headers].
  unfold headers_of. rewrite lookup_insert_ne by done. by rewrite lookup_insert_eq.
Qed.

Lemma startswith_split s p :
  startswith s p = true -> s = p +:+ drop (String.length p) s.
Proof.
  revert s. induction p as [|c p IH]; intros s Hs; [by destruct s|].
  destruct s as [|d s]; [done|]. simpl in Hs.
  destruct (Ascii.eqb c d) eqn:E; [|done]. apply Ascii.eqb_eq in E as ->.
  simpl. f_equal. by apply IH.
Qed.

Lemma find_blank_line_found data : forall n,
  find_blank_line data = Some n ->
  data = take n data +:+ crlf +:+ crlf +:+ drop (n + 4) data
  /\ forall m, m < n -> startswith (drop m data) (crlf +:+ crlf) = false.
Proof.
  induction data as [|c data IH]; intros n Hfind; [done|].
  rewrite find_blank_line_cons in Hfind.
  destruct (startswith (String c data) (crlf +:+ crlf)) eqn:Hhere.
  - injection Hfind as <-. split; [|intros m Hm; lia].
    apply startswith_split in Hhere. exact Hhere.
  - destruct (find_blank_line data) as [n'|] eqn:Hrest; [|done].
    injection Hfind as <-. destruct (IH n' eq_refl) as [Hsplit Hnone].
    split.
    + simpl. f_equal. exact Hsplit.
    + intros [|m] Hm; [exact Hhere|]. simpl. apply Hnone. lia.
Qed.

(** Whatever bytes the client is given: without a blank line there is no
    result, and when [parse_http_response] returns a body, the bytes are a
    header block without blank line, the first blank line, and that
    body. *)
Theorem parse_splits_at_first_blank_line response_data :
  (find_blank_line response_data = None -> parse_http_response response_data = NoResponse)
  /\ (forall status_code headers body,
        parse_http_response response_data = ParsedResponse status_code headers body ->
        exists header_end,
          find_blank_line response_data = Some header_end
          /\ response_data = take header_end response_data +:+ crlf +:+ crlf +:+ body
          /\ (forall m, m < header_end ->
                        startswith (drop m response_data) (crlf +:+ crlf) = false)).
Proof.
  split.
  - intros Hnone. unfold parse_http_response. by rewrite Hnone.
  - intros status_code headers body Hparse. unfold parse_http_response in Hparse.
    destruct (find_blank_line response_data) as [n|] eqn:Hfind; [|done].
    exists n. destruct (find_blank_line_found _ _ Hfind) as [Hsplit Hnone].
    cbv zeta in Hparse.
    destruct (negb (all_chars is_ascii (take n response_data))); [done|].
    destruct (split_char_max " " 2 _) as [|p0 [|code ps]]; try done.
    destruct (4300 <? String.length code)%nat; [done|].
    destruct (py_int code); [|done].
    injection Hparse as _ _ <-. done.
Qed.





End ClientClaims.

(** The bytes of a 429 page of the unified server, whose body holds a blank
    line of its own: the client reads back status, headers and body. *)
Lemma client_reads_what_servers_send_witness :
  let r := {| status_code := 429; content_type := "text/html";
              body := "<h1>429</h1>" +:+ PyStr.crlf +:+ PyStr.crlf +:+ "<p>slow down</p>" |} in
  Lab1_client.parse_http_response (send_response true r)
  = Lab1_client.ParsedResponse 429 (headers_of r) (body r)
  /\ headers_of r !! "content-length" = Some "32"
  /\ Lab1_client.get_content_type (headers_of r) = "text/html".
Proof.
  intros r.
  apply (client_reads_what_servers_send true r); vm_compute; tauto.
Defined.

(** Bytes with two blank lines: the body starts after the first one. *)
Lemma parse_splits_at_first_blank_line_witness :
  let response_data :=
    "HTTP/1.1 200 OK" +:+ PyStr.crlf +:+ "A: b" +:+ PyStr.crlf +:+ PyStr.crlf
      +:+ "x" +:+ PyStr.crlf +:+ PyStr.crlf +:+ "y" in
  exists header_end,
    Lab1_client.find_blank_line response_data = Some header_end
    /\ response_data
       = Lab1_client.take header_end response_data +:+ PyStr.crlf +:+ PyStr.crlf
           +:+ ("x" +:+ PyStr.crlf +:+ PyStr.crlf +:+ "y")
    /\ (forall m, m < header_end ->
          PyStr.startswith (Lab1_client.drop m response_data) (PyStr.crlf +:+ PyStr.crlf)
          = false).
Proof.
  intros response_data.
  apply (proj2 (parse_splits_at_first_blank_line response_data)
           200%Z {[ "a" := "b" ]}).
  vm_compute. reflexivity.
Defined.



(** ** The Hits column of a listing *)

Section HitsColumn.
Import PyStr.
Implicit Types (s a b item path url_path base_dir : string).
Local Arguments String.append !_ _ / : simpl nomatch.

Lemma str_app_assoc a b c : (a +:+ b) +:+ c = a +:+ (b +:+ c).
Proof. induction a as [|x a IH]; [done|]. simpl. by rewrite IH. Qed.

Lemma str_app_nil_r a : a +:+ "" = a.
Proof. induction a as [|x a IH]; [done|]. simpl. by rewrite IH. Qed.

Lemma entry_name_head item :
  entry_name item = true ->
  exists c rest, item = String c rest /\ Ascii.eqb c slash = false.
Proof.
  unfold entry_name. destruct item as [|c rest]; [done|].
  intros H. exists c, rest. split; [done|].
  apply andb_true_iff in H as [_ H]. simpl in H.
  apply andb_true_iff in H as [H _]. by apply negb_true_iff in H.
Qed.

Lemma entry_name_no_slash item : entry_name item = true -> no_slash item = true.
Proof. unfold entry_name. intros H. by apply andb_true_iff in H as [_ H]. Qed.

Lemma entry_name_not item :
  entry_name item = true ->
  String.eqb item "" = false /\ String.eqb item "." = false /\ String.eqb item ".." = false.
Proof.
  unfold entry_name. intros H.
  apply andb_true_iff in H as [H _]. apply andb_true_iff in H as [H H3].
  apply andb_true_iff in H as [H1 H2].
  by rewrite !negb_true_iff in H1, H2, H3.
Qed.

Lemma split_slash_not_nil s : split_slash s <> [].
Proof.
  induction s as [|c s IH]; [done|]. simpl.
  destruct (Ascii.eqb c slash); [done|]. by destruct (split_slash s).
Qed.

Lemma split_slash_plain s : no_slash s = true -> split_slash s = [s].
Proof.
  induction s as [|c s IH]; [done|]. simpl. intros H.
  apply andb_true_iff in H as [Hc Hs]. apply negb_true_iff in Hc.
  by rewrite Hc, (IH Hs).
Qed.

Lemma split_slash_app a b :
  split_slash (a +:+ "/" +:+ b) = split_slash a ++ split_slash b.
Proof.
  induction a as [|c a IH]; [done|].
  change (String c a +:+ "/" +:+ b) with (String c (a +:+ "/" +:+ b)).
  cbn [split_slash]. destruct (Ascii.eqb c slash); [by rewrite IH|].
  rewrite IH. destruct (split_slash a) as [|x xs] eqn:E; [by apply split_slash_not_nil in E|].
  done.
Qed.

Lemma split_slash_no_slash s : Forall (fun c => no_slash c = true) (split_slash s).
Proof.
  induction s as [|c s IH]; [by repeat constructor|]. simpl.
  destruct (Ascii.eqb c slash) eqn:Hc; [by constructor|].
  destruct (split_slash s) as [|x xs]; [repeat constructor; simpl; by rewrite Hc|].
  inversion IH; subst. constructor; [|done]. simpl. by rewrite Hc.
Qed.

Lemma endswith_slash_cons c s : s <> "" -> endswith_slash (String c s) = endswith_slash s.
Proof. by destruct s. Qed.

Lemma endswith_slash_inv s : endswith_slash s = true -> exists a, s = a +:+ "/".
Proof.
  induction s as [|c s IH]; [done|]. destruct s as [|d s].
  - simpl. intros H. apply Ascii.eqb_eq in H as ->. by exists "".
  - rewrite endswith_slash_cons by done. intros H.
    destruct (IH H) as [a Ha]. exists (String c a). simpl. by rewrite <- Ha.
Qed.

Lemma endswith_slash_app a b : b <> "" -> endswith_slash (a +:+ b) = endswith_slash b.
Proof.
  intros Hb. induction a as [|c a IH]; [done|].
  change (String c a +:+ b) with (String c (a +:+ b)).
  rewrite endswith_slash_cons; [done|]. destruct a; [done|done].
Qed.

Lemma lstrip_slash_head c s :
  Ascii.eqb c slash = false -> lstrip_slash (String c s) = String c s.
Proof. intros H. simpl. by rewrite H. Qed.

Lemma startswith_nil s : startswith s "" = true.
Proof. by destruct s. Qed.

Lemma startswith_slash_cons c s : startswith (String c s) "/" = Ascii.eqb c slash.
Proof.
  cbn [startswith]. rewrite Ascii.eqb_sym.
  change (Ascii.eqb c "/") with (Ascii.eqb c slash).
  by destruct (Ascii.eqb c slash), s.
Qed.

Lemma startswith_lstrip_slash s : startswith (lstrip_slash s) "/" = false.
Proof.
  induction s as [|c s IH]; [done|]. cbn [lstrip_slash].
  destruct (Ascii.eqb c slash) eqn:Hc; [done|]. by rewrite startswith_slash_cons.
Qed.

(** [os.path.join] with a name of a directory entry. *)
Lemma join_entry a item :
  entry_name item = true ->
  posixpath.join a item
  = if String.eqb a "" || endswith_slash a then a +:+ item else a +:+ "/" +:+ item.
Proof.
  intros (c & rest & -> & Hc)%entry_name_head. unfold posixpath.join.
  by rewrite startswith_slash_cons, Hc.
Qed.

Lemma join_entry_cons c d a item :
  entry_name item = true ->
  posixpath.join (String c (String d a)) item = String c (posixpath.join (String d a) item).
Proof.
  intros Hitem. rewrite !join_entry by done.
  rewrite (endswith_slash_cons c) by done. simpl String.eqb. cbn [orb].
  by destruct (endswith_slash (String d a)).
Qed.

(** The link of an entry, less its leading slashes. *)
Lemma lstrip_item_url url_path item :
  entry_name item = true ->
  lstrip_slash (item_url url_path item)
  = if String.eqb (lstrip_slash url_path) "" then item
    else item_url (lstrip_slash url_path) item.
Proof.
  intros Hitem. destruct (entry_name_head _ Hitem) as (i & irest & -> & Hi).
  induction url_path as [|c u IH].
  - unfold item_url. simpl. by rewrite Hi.
  - destruct (Ascii.eqb c slash) eqn:Hc.
    + simpl lstrip_slash at 2 3. rewrite Hc. destruct u as [|d u].
      * unfold item_url. simpl. rewrite Hc. simpl. by rewrite Hc, Hi.
      * rewrite <- IH. unfold item_url. rewrite (endswith_slash_cons c) by done.
        destruct (endswith_slash (String d u)); simpl; by rewrite Hc.
    + rewrite (lstrip_slash_head c u Hc). simpl String.eqb. cbv iota.
      unfold item_url. destruct (endswith_slash (String c u)); simpl; by rewrite Hc.
Qed.

Lemma item_url_not_root url_path item :
  entry_name item = true -> url_path <> "/" -> String.eqb (item_url url_path item) "/" = false.
Proof.
  intros Hitem Hu. destruct (entry_name_head _ Hitem) as (i & irest & -> & Hi).
  apply String.eqb_neq. unfold item_url.
  destruct url_path as [|c [|d u]].
  - simpl. by intros [= ->].
  - simpl. destruct (Ascii.eqb c slash) eqn:Hc; simpl; [|done].
    apply Ascii.eqb_eq in Hc as ->. done.
  - rewrite endswith_slash_cons by done.
    destruct (endswith_slash (String d u)); simpl; done.
Qed.

(** The path resolved for the link of an entry is the path resolved for
    the directory, joined with the name and normalised. *)
Lemma join_item_url base_dir url_path item :
  entry_name item = true ->
  posixpath.join base_dir (lstrip_slash (item_url url_path item))
  = posixpath.join (posixpath.join base_dir (lstrip_slash url_path)) item.
Proof.
  intros Hitem. rewrite lstrip_item_url by done.
  pose proof (startswith_lstrip_slash url_path) as Hrel.
  destruct (lstrip_slash url_path) as [|c rel] eqn:E.
  - simpl String.eqb. cbv iota. rewrite (join_entry base_dir) by done.
    unfold posixpath.join at 2. simpl startswith. cbv iota.
    destruct (String.eqb base_dir "") eqn:Hb.
    + apply String.eqb_eq in Hb as ->. simpl. by rewrite join_entry.
    + cbn [orb]. destruct (endswith_slash base_dir) eqn:He.
      * rewrite str_app_nil_r. rewrite join_entry by done. by rewrite Hb, He.
      * rewrite join_entry by done.
        rewrite endswith_slash_app by done. simpl endswith_slash.
        replace (String.eqb (base_dir +:+ "/" +:+ "") "") with false
          by (by destruct base_dir).
        cbn [orb]. cbv iota. rewrite str_app_assoc. done.
  - simpl String.eqb. cbv iota.
    assert (startswith (item_url (String c rel) item) "/" = false) as Hst.
    { rewrite startswith_slash_cons in Hrel. unfold item_url.
      destruct (endswith_slash (String c rel));
        [change (String c rel +:+ item) with (String c (rel +:+ item))
        |change (String c rel +:+ "/" +:+ item) with (String c (rel +:+ "/" +:+ item))];
        by rewrite startswith_slash_cons. }
    unfold posixpath.join at 1 3. rewrite Hst, Hrel.
    set (B := if String.eqb base_dir "" || endswith_slash base_dir then base_dir
              else base_dir +:+ "/").
    assert (forall x, (if String.eqb base_dir "" || endswith_slash base_dir
                       then base_dir +:+ x else base_dir +:+ "/" +:+ x) = B +:+ x) as HB.
    { intros x. unfold B. destruct (_ || _); [done|]. by rewrite str_app_assoc. }
    rewrite !HB. rewrite join_entry by done.
    rewrite endswith_slash_app by done.
    replace (String.eqb (B +:+ String c rel) "") with false
      by (by destruct B).
    cbn [orb]. unfold item_url.
    destruct (endswith_slash (String c rel)); by rewrite !str_app_assoc.
Qed.

Lemma normpath_eq path :
  path <> "" ->
  posixpath.normpath path
  = let p := root_prefix (initial_slashes path) +:+ PyStr.join "/" (normpath_comps path) in
    if String.eqb p "" then "." else p.
Proof.
  intros Hp. apply String.eqb_neq in Hp. unfold posixpath.normpath. rewrite Hp.
  cbv zeta. fold (initial_slashes path). fold (normpath_comps path).
  by destruct (initial_slashes path) as [|[|n]].
Qed.

Lemma initial_slashes_join a item :
  a <> "" -> entry_name item = true ->
  initial_slashes (posixpath.join a item) = initial_slashes a.
Proof.
  intros Ha Hitem.
  assert (forall p x, x <> "" ->
            Forall (fun c => c = slash) (list_ascii_of_string p) ->
            startswith (posixpath.join x item) p = startswith x p) as Hsw.
  { intros p x. revert p. induction x as [|c x IH]; intros p Hx Hall; [done|].
    destruct p as [|d p]; [by rewrite !startswith_nil|].
    cbn [list_ascii_of_string] in Hall. inversion Hall as [|?? -> Hall']; subst.
    destruct x as [|c' x].
    - rewrite join_entry by done.
      destruct (entry_name_head _ Hitem) as (i & irest & -> & Hi).
      change (String.eqb (String c "") "" || endswith_slash (String c ""))
        with (Ascii.eqb c slash).
      destruct (Ascii.eqb c slash) eqn:Hc.
      + apply Ascii.eqb_eq in Hc as ->.
        change (String slash "" +:+ String i irest) with (String slash (String i irest)).
        cbn [startswith]. rewrite Ascii.eqb_refl.
        destruct p as [|e p]; [done|]. inversion Hall'; subst.
        cbn [startswith]. by rewrite (Ascii.eqb_sym slash i), Hi.
      + change (String c "" +:+ "/" +:+ String i irest)
          with (String c ("/" +:+ String i irest)).
        cbn [startswith]. by rewrite (Ascii.eqb_sym slash c), Hc.
    - rewrite join_entry_cons by done. cbn [startswith].
      destruct (Ascii.eqb slash c); [|done]. by apply IH. }
  unfold initial_slashes.
  rewrite !Hsw; try done; repeat constructor.
Qed.

Lemma normpath_step_empty n acc : posixpath.normpath_step n acc "" = acc.
Proof. done. Qed.

Lemma normpath_step_entry n acc item :
  entry_name item = true -> posixpath.normpath_step n acc item = item :: acc.
Proof.
  intros (H1 & H2 & H3)%entry_name_not. unfold posixpath.normpath_step.
  by rewrite H1, H2, H3.
Qed.

Lemma normpath_comps_join a item :
  a <> "" -> entry_name item = true ->
  normpath_comps (posixpath.join a item) = normpath_comps a ++ [item].
Proof.
  intros Ha Hitem. unfold normpath_comps.
  rewrite initial_slashes_join by done.
  rewrite join_entry by done. apply String.eqb_neq in Ha. rewrite Ha. cbn [orb].
  destruct (endswith_slash a) eqn:He.
  - destruct (endswith_slash_inv _ He) as [a' ->].
    rewrite str_app_assoc.
    change ("/" +:+ item) with ("/" +:+ item).
    rewrite (split_slash_app a' item).
    replace (a' +:+ "/") with (a' +:+ "/" +:+ "") by done.
    rewrite (split_slash_app a' ""). simpl split_slash at 3.
    rewrite (split_slash_plain item) by by apply entry_name_no_slash.
    rewrite !fold_left_app. simpl fold_left.
    rewrite normpath_step_empty, normpath_step_entry by done. done.
  - rewrite (split_slash_app a item).
    rewrite (split_slash_plain item) by by apply entry_name_no_slash.
    rewrite fold_left_app. simpl fold_left.
    rewrite normpath_step_entry by done. done.
Qed.

Lemma normpath_step_kept n acc comp :
  no_slash comp = true -> Forall kept_comp acc ->
  Forall kept_comp (posixpath.normpath_step n acc comp).
Proof.
  intros Hc Hacc. unfold posixpath.normpath_step.
  destruct (String.eqb comp "") eqn:H1; [done|].
  destruct (String.eqb comp ".") eqn:H2; [done|]. cbn [orb]. cbv iota.
  apply String.eqb_neq in H1, H2.
  destruct (_ || _).
  - by constructor.
  - destruct acc; [done|]. by inversion Hacc.
Qed.

Lemma normpath_comps_kept path : Forall kept_comp (normpath_comps path).
Proof.
  unfold normpath_comps. apply Forall_rev.
  generalize (initial_slashes path). intros n.
  assert (forall comps acc, Forall (fun c => no_slash c = true) comps ->
            Forall kept_comp acc ->
            Forall kept_comp (fold_left (posixpath.normpath_step n) comps acc)) as H.
  { induction comps as [|c comps IH]; intros acc Hcomps Hacc; [done|].
    inversion Hcomps; subst. simpl. apply IH; [done|]. by apply normpath_step_kept. }
  apply H; [apply split_slash_no_slash|constructor].
Qed.

Lemma join_snoc (l : list string) item :
  PyStr.join "/" (l ++ [item])
  = match l with [] => item | _ => PyStr.join "/" l +:+ "/" +:+ item end.
Proof.
  induction l as [|c l IH]; [done|].
  destruct l as [|d l]; [done|].
  change (PyStr.join "/" ((c :: d :: l) ++ [item]))
    with (c +:+ "/" +:+ PyStr.join "/" ((d :: l) ++ [item])).
  rewrite IH.
  change (PyStr.join "/" (c :: d :: l)) with (c +:+ "/" +:+ PyStr.join "/" (d :: l)).
  by rewrite !str_app_assoc.
Qed.

Lemma join_kept (l : list string) :
  l <> [] -> Forall kept_comp l ->
  PyStr.join "/" l <> "" /\ endswith_slash (PyStr.join "/" l) = false.
Proof.
  induction l as [|c l IH]; [done|]. intros _ Hall.
  inversion Hall as [|?? (Hne & _ & Hns) Hall']; subst.
  destruct l as [|d l].
  - simpl. split; [done|]. clear -Hne Hns.
    induction c as [|x c IH]; [done|]. destruct c as [|y c].
    + simpl in *. apply andb_true_iff in Hns as [Hx _]. by apply negb_true_iff in Hx.
    + rewrite endswith_slash_cons by done. apply IH; [done|].
      simpl in Hns. by apply andb_true_iff in Hns as [_ Hns].
  - destruct (IH ltac:(done) Hall') as [Hne' He'].
    change (PyStr.join "/" (c :: d :: l)) with (c +:+ "/" +:+ PyStr.join "/" (d :: l)).
    split.
    + destruct c; [done|done].
    + rewrite endswith_slash_app.
      * change ("/" +:+ PyStr.join "/" (d :: l))
          with (String "/" (PyStr.join "/" (d :: l))).
        by rewrite endswith_slash_cons.
      * done.
Qed.

(** [normpath] of a path joined with the name of an entry: the normalised
    path joined with the name, unless the normalised path is [.], which
    [normpath] leaves out before a name. *)
Lemma normpath_join_entry a item :
  entry_name item = true ->
  posixpath.normpath (posixpath.join a item)
  = if String.eqb (posixpath.normpath a) "." then item
    else posixpath.join (posixpath.normpath a) item.
Proof.
  intros Hitem. destruct (entry_name_head _ Hitem) as (i & irest & Ei & Hi).
  assert (forall x, String.eqb (x +:+ item) "" = false) as Hne.
  { intros x. rewrite Ei. by destruct x. }
  destruct (String.eqb a "") eqn:Ha.
  - apply String.eqb_eq in Ha as ->.
    change (posixpath.normpath "") with ".". simpl String.eqb. cbv iota.
    assert (posixpath.join "" item = item) as -> by (by rewrite join_entry).
    rewrite normpath_eq by (rewrite Ei; done). cbv zeta.
    assert (initial_slashes item = 0%nat) as ->.
    { rewrite Ei. unfold initial_slashes. by rewrite startswith_slash_cons, Hi. }
    unfold normpath_comps.
    rewrite (split_slash_plain item) by by apply entry_name_no_slash.
    simpl fold_left. rewrite normpath_step_entry by done. simpl.
    rewrite Ei. done.
  - apply String.eqb_neq in Ha.
    rewrite (normpath_eq (posixpath.join a item)).
    2:{ rewrite join_entry by done. intros E.
        pose proof (Hne a) as H1. pose proof (Hne (a +:+ "/")) as H2.
        rewrite str_app_assoc in H2.
        destruct (_ || _); [by rewrite E in H1|by rewrite E in H2]. }
    rewrite (normpath_eq a Ha). cbv zeta.
    rewrite initial_slashes_join, normpath_comps_join by done.
    rewrite join_snoc.
    pose proof (normpath_comps_kept a) as Hkept.
    destruct (normpath_comps a) as [|c l] eqn:El.
    + simpl PyStr.join. rewrite str_app_nil_r.
      destruct (initial_slashes a) as [|[|n]]; simpl root_prefix.
      * by rewrite Hne.
      * rewrite Hne. change (String.eqb "/" "") with false. cbv iota.
        change (String.eqb "/" ".") with false. cbv iota. by rewrite join_entry.
      * rewrite Hne. change (String.eqb "//" "") with false. cbv iota.
        change (String.eqb "//" ".") with false. cbv iota. by rewrite join_entry.
    + destruct (join_kept (c :: l) ltac:(done) Hkept) as [Hj He].
      set (j := PyStr.join "/" (c :: l)) in *.
      set (pre := root_prefix (initial_slashes a)).
      assert (String.eqb (pre +:+ j) "" = false) as ->.
      { destruct j; [done|]. by destruct pre. }
      assert (String.eqb (pre +:+ j) "." = false) as ->.
      { apply String.eqb_neq. intros E.
        assert (pre = "" /\ j = ".") as [_ Ej].
        { unfold pre in *. destruct (initial_slashes a) as [|[|n]]; simpl in E; done. }
        unfold j in Ej. inversion Hkept as [|?? (Hc1 & Hc2 & Hc3) Hl]; subst.
        destruct l as [|d l]; [by simpl in Ej|].
        change (PyStr.join "/" (c :: d :: l))
          with (c +:+ "/" +:+ PyStr.join "/" (d :: l)) in Ej.
        destruct c as [|x [|y c]]; [done| |]; simpl in Ej; done. }
      rewrite join_entry by done.
      rewrite endswith_slash_app by done. rewrite He.
      assert (String.eqb (pre +:+ j) "" = false) as ->.
      { destruct j; [done|]. by destruct pre. }
      cbn [orb]. cbv iota.
      assert (String.eqb (pre +:+ j +:+ "/" +:+ item) "" = false) as ->.
      { destruct j; [done|]. by destruct pre. }
      by rewrite !str_app_assoc.
Qed.

Lemma resolve_item_url cwd fs base_dir url_path item :
  let w := posix_world cwd fs in
  entry_name item = true ->
  resolve w base_dir (item_url url_path item)
  = if String.eqb (resolve w base_dir url_path) "." then item
    else path_join w (resolve w base_dir url_path) item.
Proof.
  intros w Hitem. unfold resolve. cbn [w posix_world normpath path_join].
  destruct (String.eqb url_path "/") eqn:Hu.
  - apply String.eqb_eq in Hu as ->.
    destruct (entry_name_head _ Hitem) as (i & irest & Ei & Hi).
    assert (item_url "/" item = "/" +:+ item) as -> by done.
    assert (String.eqb ("/" +:+ item) "/" = false) as ->.
    { rewrite Ei. done. }
    assert (lstrip_slash ("/" +:+ item) = item) as ->.
    { rewrite Ei. simpl. by rewrite Hi. }
    by apply normpath_join_entry.
  - apply String.eqb_neq in Hu.
    rewrite item_url_not_root by done.
    rewrite join_item_url by done.
    by apply normpath_join_entry.
Qed.

(** The key whose count a listing shows for an entry, and the key under
    which a request for the link of that entry is counted.  On a POSIX
    system they are the same key unless the directory listed resolves to
    [.]: then the listing looks under [./name] and requests are counted
    under [name]. *)
Theorem listing_key_is_counted_key cwd fs base_dir url_path item :
  let w := posix_world cwd fs in
  let dir_path := resolve w base_dir url_path in
  entry_name item = true ->
  (path_join w dir_path item = resolve w base_dir (item_url url_path item)
   <-> dir_path <> ".")
  /\ (dir_path = "." ->
      path_join w dir_path item = "./" +:+ item
      /\ resolve w base_dir (item_url url_path item) = item).
Proof.
  intros w dir_path Hitem.
  pose proof (resolve_item_url cwd fs base_dir url_path item Hitem) as Hres.
  cbv zeta in Hres. fold w in Hres. fold dir_path in Hres.
  assert (dir_path = "." ->
          path_join w dir_path item = "./" +:+ item
          /\ resolve w base_dir (item_url url_path item) = item) as Hdot.
  { intros E. rewrite Hres, E. split; [|done].
    cbn [w posix_world path_join]. by rewrite join_entry. }
  split; [|exact Hdot].
  destruct (String.eqb dir_path ".") eqn:E.
  - apply String.eqb_eq in E. destruct (Hdot E) as [-> ->]. split; [|done].
    intros Heq. exfalso. apply (f_equal String.length) in Heq. simpl in Heq. lia.
  - rewrite Hres. split; [|done]. intros _. by apply String.eqb_neq.
Qed.

Lemma listing_row_hits w mode (hits_now : gmap string Z) dir_path url_path item :
  counts_hits mode = true ->
  listing_row w mode hits_now dir_path url_path item
  = row_with_hits w dir_path url_path item
      (pretty (default 0%Z (hits_now !! path_join w dir_path item))).
Proof. intros Hcounts. unfold listing_row, row_with_hits, item_url. by rewrite Hcounts. Qed.

Lemma counted_key_resolved w base_dir method target (more : list string) key :
  counted_key w base_dir (RequestLine (method :: target :: more)) = Some key ->
  key = resolve w base_dir (unquote w target).
Proof.
  unfold counted_key. cbv zeta. destruct (_ && _); [|done]. by intros [= <-].
Qed.

(** The Hits column after a request for a link of the listing.  In [race]
    and [threadsafe] mode on a POSIX system, when a GET for the link of an
    entry of a listing has reached the counter block, the row of that entry
    shows one hit more than before; unless the directory listed resolves to
    [.], where the row shows what it showed before. *)
Theorem hits_column_after_request mode cwd fs now ip base_dir url_path item target
    (more : list string) st :
  let w := posix_world cwd fs in
  let dir_path := resolve w base_dir url_path in
  let request := RequestLine ("GET" :: target :: more) in
  let st' := snd (handle_client mode w now ip base_dir request st) in
  mode = race \/ mode = threadsafe ->
  entry_name item = true ->
  unquote w target = item_url url_path item ->
  counted_key w base_dir request <> None ->
  (dir_path <> "." ->
   listing_row w mode (file_hits st') dir_path url_path item
   = row_with_hits w dir_path url_path item
       (pretty (default 0 (file_hits st !! path_join w dir_path item) + 1)%Z))
  /\ (dir_path = "." ->
      listing_row w mode (file_hits st') dir_path url_path item
      = listing_row w mode (file_hits st) dir_path url_path item).
Proof.
  intros w dir_path request st' Hmode Hitem Htarget Hcounted.
  assert (counts_hits mode = true) as Hcounts by (by destruct Hmode as [-> | ->]).
  assert (file_hits st'
          = <[resolve w base_dir (item_url url_path item)
              := (default 0 (file_hits st !! resolve w base_dir (item_url url_path item)) + 1)%Z]>
              (file_hits st)) as Hst.
  { unfold st'. rewrite (handle_client_counts _ _ _ _ _ _ _ Hmode).
    destruct (counted_key w base_dir request) as [key|] eqn:Hkey; [|done].
    apply counted_key_resolved in Hkey. by rewrite Hkey, Htarget. }
  destruct (listing_key_is_counted_key cwd fs base_dir url_path item Hitem) as [Hiff Hdot].
  fold w in Hiff, Hdot. fold dir_path in Hiff, Hdot.
  split.
  - intros Hne. apply Hiff in Hne.
    rewrite listing_row_hits by done. rewrite Hst, <- Hne.
    by rewrite lookup_insert_eq.
  - intros Heq. destruct (Hdot Heq) as [Hrow Hkey].
    rewrite !listing_row_hits by done. rewrite Hst, Hkey, Hrow.
    rewrite lookup_insert_ne; [done|].
    intros E. apply (f_equal String.length) in E. simpl in E. lia.
Qed.

End HitsColumn.

(** The listing of [docs] on a server started in [/srv/www]: the key read
    for [a.pdf] is the key a request for its link is counted under. *)
Lemma listing_key_is_counted_key_witness :
  path_join example_world (resolve example_world "/srv/www" "/docs") "a.pdf"
  = resolve example_world "/srv/www" (item_url "/docs" "a.pdf").
Proof.
  apply (proj1 (listing_key_is_counted_key "/home/u" example_tree "/srv/www" "/docs" "a.pdf"
                  eq_refl)).
  vm_compute. discriminate.
Defined.

(** A server started with [.] as its directory, in [/srv/www]: after a
    request for [/notes.txt] has been counted, the listing of [/] shows the
    row of [notes.txt] as before. *)
Lemma hits_column_after_request_witness :
  let w := posix_world "/srv/www" example_tree in
  let request := RequestLine ["GET"; "/notes.txt"; "HTTP/1.1"] in
  let st' := snd (handle_client threadsafe w 100%float "10.0.0.7" "." request fresh_state) in
  file_hits st' = {[ "notes.txt" := 1%Z ]}
  /\ listing_row w threadsafe (file_hits st') "." "/" "notes.txt"
     = listing_row w threadsafe (file_hits fresh_state) "." "/" "notes.txt".
Proof.
  intros w request st'. split; [by vm_compute|].
  apply (proj2 (hits_column_after_request threadsafe "/srv/www" example_tree 100%float
                  "10.0.0.7" "." "/" "notes.txt" "/notes.txt" ["HTTP/1.1"] fresh_state
                  ltac:(by right) eq_refl eq_refl ltac:(vm_compute; discriminate))).
  reflexivity.
Defined.



(** ** Requests and answers on the wire *)

Section OnTheWire.
Import PyStr Lab1_client.
Implicit Types (s t host path : string).
Local Arguments String.append !_ _ / : simpl nomatch.

Lemma is_word_cons s :
  is_word s = true ->
  exists c s', s = String c s' /\ is_space c = false
               /\ (s' = "" \/ is_word s' = true).
Proof.
  unfold is_word. destruct s as [|c s']; [done|]. simpl.
  intros [Hc Hs]%andb_true_iff. apply negb_true_iff in Hc.
  exists c, s'. split; [done|]. split; [done|].
  destruct s'; [by left|by right].
Qed.

Lemma is_word_not_cr s : is_word s = true -> all_chars not_cr s = true.
Proof.
  unfold is_word. intros [_ H]%andb_true_iff.
  eapply all_chars_impl; [|exact H].
  intros c Hc. unfold not_cr. apply negb_true_iff.
  destruct (Ascii.eqb c (ascii_of_nat 13)) eqn:E; [|done].
  apply Ascii.eqb_eq in E as ->. done.
Qed.

Lemma split_whitespace_space c t :
  is_space c = true -> split_whitespace (String c t) = split_whitespace t.
Proof. intros H. cbn [split_whitespace]. by rewrite H. Qed.

Lemma split_whitespace_two x y u :
  is_space x = false -> is_space y = false ->
  split_whitespace (String x (String y u)) = prepend x (split_whitespace (String y u)).
Proof. intros Hx Hy. cbn [split_whitespace]. by rewrite Hx, Hy. Qed.

Lemma split_whitespace_last x t :
  is_space x = false ->
  (t = "" \/ exists c t', t = String c t' /\ is_space c = true) ->
  split_whitespace (String x t) = String x "" :: split_whitespace t.
Proof.
  intros Hx [-> | (c & t' & -> & Hc)]; cbn [split_whitespace]; rewrite Hx; [done|].
  by rewrite Hc.
Qed.

(** A word is split off whole. *)
Lemma split_whitespace_word s t :
  is_word s = true ->
  (t = "" \/ exists c t', t = String c t' /\ is_space c = true) ->
  split_whitespace (s +:+ t) = s :: split_whitespace t.
Proof.
  revert t. induction s as [|x s IH]; intros t Hs Ht; [done|].
  destruct (is_word_cons _ Hs) as (c & s' & [= <- <-] & Hx & Hs').
  destruct Hs' as [-> | Hs'].
  - change (String x "" +:+ t) with (String x t). by apply split_whitespace_last.
  - destruct (is_word_cons _ Hs') as (y & s'' & -> & Hy & _).
    change (String x (String y s'') +:+ t) with (String x (String y (s'' +:+ t))).
    rewrite split_whitespace_two by done.
    change (String y (s'' +:+ t)) with (String y s'' +:+ t).
    by rewrite (IH t Hs' Ht).
Qed.

Lemma hd_prepend c (l : list string) : hd "" (prepend c l) = String c (hd "" l).
Proof. by destruct l. Qed.

(** The first line of a text that starts with a word. *)
Lemma first_line_app s t :
  all_chars not_cr s = true ->
  hd "" (split_crlf (s +:+ t)) = s +:+ hd "" (split_crlf t).
Proof.
  induction s as [|x s IH]; intros Hs; [done|].
  simpl in Hs. apply andb_true_iff in Hs as [Hx Hs].
  change (String x s +:+ t) with (String x (s +:+ t)).
  destruct (s +:+ t) as [|d u] eqn:E.
  - destruct s; [|done]. simpl in E. subst t. done.
  - rewrite split_crlf_two. unfold not_cr in Hx. apply negb_true_iff in Hx.
    rewrite Hx. cbn [andb].
    rewrite hd_prepend, (IH Hs). done.
Qed.

Lemma first_line_head c t :
  hd "" (split_crlf (String c t)) = ""
  \/ exists l, hd "" (split_crlf (String c t)) = String c l.
Proof.
  destruct t as [|d u]; [right; by exists ""|].
  rewrite split_crlf_two. destruct (_ && _); [by left|].
  right. destruct (split_crlf (String d u)) as [|l ls]; [by exists ""|by exists l].
Qed.

Lemma first_line_of_request path rest :
  is_word path = true ->
  split_whitespace (hd "" (split_crlf ("GET " +:+ path +:+ " HTTP/1.1" +:+ crlf +:+ rest)))
  = ["GET"; path; "HTTP/1.1"].
Proof.
  intros Hpath.
  replace ("GET " +:+ path +:+ " HTTP/1.1" +:+ crlf +:+ rest)
    with (("GET " +:+ path +:+ " HTTP/1.1") +:+ crlf +:+ rest)
    by (by rewrite !append_assoc).
  rewrite split_crlf_cons.
  2:{ change ("GET " +:+ path +:+ " HTTP/1.1") with ("GET " +:+ (path +:+ " HTTP/1.1")).
      rewrite !all_chars_app. by rewrite (is_word_not_cr _ Hpath). }
  cbn [hd].
  change ("GET " +:+ path +:+ " HTTP/1.1") with ("GET" +:+ String " " (path +:+ " HTTP/1.1")).
  rewrite (split_whitespace_word "GET") by (done || right; by eexists _, _).
  rewrite split_whitespace_space by done.
  rewrite (split_whitespace_word path) by (done || right; by eexists _, _).
  done.
Qed.

Lemma request_is_ascii host path (more : string) :
  all_chars is_ascii host = true -> all_chars is_ascii path = true ->
  all_chars is_ascii more = true ->
  all_chars is_ascii
    ("GET " +:+ path +:+ " HTTP/1.1" +:+ crlf +:+ "Host: " +:+ host +:+ crlf +:+ more) = true.
Proof.
  intros Hhost Hpath Hmore.
  change ("GET " +:+ path +:+ " HTTP/1.1" +:+ crlf +:+ "Host: " +:+ host +:+ crlf +:+ more)
    with ("GET " +:+ (path +:+ (" HTTP/1.1" +:+ crlf +:+ "Host: ")
                        +:+ (host +:+ (crlf +:+ more)))).
  rewrite !all_chars_app. by rewrite Hhost, Hpath, Hmore.
Qed.

Lemma request_not_empty path rest : String.eqb ("GET " +:+ path +:+ rest) "" = false.
Proof. done. Qed.

Lemma read_client_request host path :
  all_chars is_ascii host = true -> all_chars is_ascii path = true ->
  is_word path = true ->
  read_request (client_request host path) = Some (RequestLine ["GET"; path; "HTTP/1.1"]).
Proof.
  intros Hhost Hpath Hword. unfold read_request, client_request.
  rewrite request_is_ascii by done. cbn [negb].
  rewrite request_not_empty. by rewrite first_line_of_request.
Qed.

(** The handlers read the request the clients send.  For a host and a path
    of ASCII characters, the path not empty and without white space, the
    request line the handlers split off the request of the client, and off
    the request of the test scripts, is [GET], the path and [HTTP/1.1]. *)
Theorem handlers_read_the_request_sent host path :
  all_chars is_ascii host = true -> all_chars is_ascii path = true ->
  is_word path = true ->
  read_request (client_request host path) = Some (RequestLine ["GET"; path; "HTTP/1.1"])
  /\ read_request (test_request host path) = Some (RequestLine ["GET"; path; "HTTP/1.1"]).
Proof.
  intros Hhost Hpath Hword. split; [by apply read_client_request|].
  unfold read_request, test_request.
  rewrite request_is_ascii by done. cbn [negb].
  rewrite request_not_empty. by rewrite first_line_of_request.
Qed.

(** The client sends the path as it is given.  When the path has white
    space in it, the handler takes what stands before the first white
    space for the path. *)
Theorem request_path_cut_at_whitespace host seen c unseen :
  all_chars is_ascii host = true ->
  all_chars is_ascii (seen +:+ String c unseen) = true ->
  is_word seen = true -> is_space c = true ->
  exists words,
    read_request (client_request host (seen +:+ String c unseen))
    = Some (RequestLine ("GET" :: seen :: words)).
Proof.
  intros Hhost Hpath Hseen Hc. unfold read_request, client_request.
  rewrite request_is_ascii by done. cbn [negb].
  rewrite request_not_empty.
  set (rest := " HTTP/1.1" +:+ crlf +:+ "Host: " +:+ host +:+ crlf
                 +:+ "Connection: close" +:+ crlf +:+ crlf).
  replace ("GET " +:+ (seen +:+ String c unseen) +:+ rest)
    with (("GET " +:+ seen) +:+ String c (unseen +:+ rest)).
  2:{ change (String c unseen) with (String c "" +:+ unseen).
      change (String c (unseen +:+ rest)) with (String c "" +:+ unseen +:+ rest).
      by rewrite !append_assoc. }
  rewrite first_line_app.
  2:{ change ("GET " +:+ seen) with ("GET " +:+ seen).
      rewrite all_chars_app. by rewrite (is_word_not_cr _ Hseen). }
  set (line := hd "" (split_crlf (String c (unseen +:+ rest)))).
  assert (line = "" \/ exists ch t', line = String ch t' /\ is_space ch = true) as Hline.
  { destruct (first_line_head c (unseen +:+ rest)) as [E | [l E]]; fold line in E.
    - by left.
    - right. by exists c, l. }
  exists (split_whitespace line).
  change (("GET " +:+ seen) +:+ line) with ("GET" +:+ String " " (seen +:+ line)).
  rewrite (split_whitespace_word "GET") by (done || right; by eexists _, _).
  rewrite split_whitespace_space by done.
  by rewrite (split_whitespace_word seen).
Qed.




Lemma first_line_of_response with_429 code rest :
  In code sent_statuses ->
  hd "" (split_crlf (status_line_of with_429 code +:+ crlf +:+ rest))
  = status_line_of with_429 code
  /\ test_status (status_line_of with_429 code) = Some (Some code).
Proof.
  intros Hcode.
  assert (all_chars not_cr (status_line_of with_429 code) = true
          /\ test_status (status_line_of with_429 code) = Some (Some code)) as [Hcr Hst].
  { simpl in Hcode.
    destruct Hcode as [<-|[<-|[<-|[<-|[<-|[<-|[<-|[]]]]]]]]; destruct with_429;
      split; vm_compute; reflexivity. }
  split; [|done]. by rewrite split_crlf_cons.
Qed.

(** The test script reads the status the server sent.  For each of the
    seven statuses of the servers, [make_request] of [test_rate_limit.py]
    reads that status off the bytes of [send_response], and off any bytes
    that start with the status line and its line end, however much of the
    rest has arrived when it stops reading. *)
Theorem test_reads_the_status_sent with_429 r :
  In (status_code r) sent_statuses ->
  test_status (send_response with_429 r) = Some (Some (status_code r))
  /\ (forall rest,
        test_status (status_line_of with_429 (status_code r) +:+ crlf +:+ rest)
        = Some (Some (status_code r))).
Proof.
  intros Hcode.
  assert (forall rest,
            test_status (status_line_of with_429 (status_code r) +:+ crlf +:+ rest)
            = Some (Some (status_code r))) as Hany.
  { intros rest.
    destruct (first_line_of_response with_429 _ rest Hcode) as [Hline Hst].
    unfold test_status in *. cbv zeta in *. rewrite Hline.
    assert (hd "" (split_crlf (status_line_of with_429 (status_code r)))
            = status_line_of with_429 (status_code r)) as E.
    { rewrite split_crlf_line; [done|].
      simpl in Hcode.
      destruct Hcode as [<-|[<-|[<-|[<-|[<-|[<-|[<-|[]]]]]]]]; by destruct with_429. }
    by rewrite E in Hst. }
  split; [|exact Hany].
  rewrite send_response_lines. unfold header_lines.
  change (join crlf (?a :: ?l)) with (a +:+ crlf +:+ join crlf l).
  fold (status_line_of with_429 (status_code r)).
  rewrite !append_assoc. apply Hany.
Qed.

End OnTheWire.

(** The request of the client, and of the test scripts, for [/docs/a.pdf]
    on [localhost]. *)
Lemma handlers_read_the_request_sent_witness :
  read_request (client_request "localhost" "/docs/a.pdf")
  = Some (RequestLine ["GET"; "/docs/a.pdf"; "HTTP/1.1"])
  /\ read_request (test_request "localhost" "/docs/a.pdf")
     = Some (RequestLine ["GET"; "/docs/a.pdf"; "HTTP/1.1"]).
Proof.
  apply (handlers_read_the_request_sent "localhost" "/docs/a.pdf"); reflexivity.
Defined.

(** The client started for [/my file.pdf]: the handler reads [/my]. *)
Lemma request_path_cut_at_whitespace_witness :
  exists words,
    read_request (client_request "localhost" "/my file.pdf")
    = Some (RequestLine ("GET" :: "/my" :: words)).
Proof.
  apply (request_path_cut_at_whitespace "localhost" "/my" " " "file.pdf"); reflexivity.
Defined.


(** The 429 of the unified server, read by the test script. *)
Lemma test_reads_the_status_sent_witness :
  test_status (send_response true too_many_requests) = Some (Some 429%Z).
Proof.
  apply (proj1 (test_reads_the_status_sent true too_many_requests
                  ltac:(simpl; tauto))).
Defined.
